(** * Seat booking for webinars: the [Webinar] entity and the [BookSeat] use case

    A shallow embedding of
    - [src/webinars/entities/webinar.entity.ts] (class [Webinar]),
    - the [BookSeat] use case ([execute], with its two exception classes),
    - [src/webinars/adapters/webinar-repository.in-memory.ts],
    - the in-memory user and participation repositories of the use case's
      test file.

    JavaScript [number]s that hold seat counts are integers of [Z]; arrays
    are lists, [push] appends at the end; strings are [string] and [===] on
    them is [String.eqb].  An [async] function is a computation over the
    four stores that either throws or returns; its [await]s are the points
    where another invocation can run, which the task semantics of the second
    part makes explicit. *)

From Stdlib Require Import ZArith List String Bool Lia DecimalString.
Import ListNotations.
Local Open Scope string_scope.
Local Open Scope list_scope.
Local Open Scope Z_scope.

(* ===================================================================== *)
(** ** Entities *)
(* ===================================================================== *)

Module User.
(** [new User({ id, email, password })] *)
Record t := mk { id : string; email : string; password : string }.
End User.

Module Participation.
(** [new Participation({ userId, webinarId })] *)
Record t := mk { userId : string; webinarId : string }.
End Participation.

Module Webinar.

(** [WebinarProps]; dates are milliseconds since the epoch, the optional
    [participants] array is an [option]. *)
Record t := mk {
  id : string;
  organizerId : string;
  title : string;
  startDate : Z;
  endDate : Z;
  seats : Z;
  participants : option (list string)
}.

(** [this.props.participants || []] *)
Definition participantsOrEmpty (w : t) : list string :=
  match participants w with
  | Some l => l
  | None => []
  end.

(** Modelled from the spec: [Entity.update] of [src/shared/entity], which is
    not among the sources.  The entity is updated by replacing a bag of
    properties; the only bag this file passes is [{ participants }]. *)
Definition update_participants (w : t) (ps : list string) : t :=
  mk (id w) (organizerId w) (title w) (startDate w) (endDate w) (seats w)
     (Some ps).

Definition hasTooManySeats (w : t) : bool := seats w >? 1000.

Definition hasNotEnoughSeats (w : t) : bool := seats w <? 1.

Definition isOrganizer (w : t) (userId : string) : bool :=
  String.eqb (organizerId w) userId.

Definition hasAvailableSeats (w : t) : bool :=
  Z.of_nat (List.length (participantsOrEmpty w)) <? seats w.

Definition isParticipant (w : t) (userId : string) : bool :=
  existsb (String.eqb userId) (participantsOrEmpty w).

Definition addParticipant (w : t) (userId : string) : t :=
  let participants := participantsOrEmpty w ++ [userId] in
  update_participants w participants.

Definition getRemainingSeats (w : t) : Z :=
  seats w - Z.of_nat (List.length (participantsOrEmpty w)).

End Webinar.

(** An e-mail handed to the mailer. *)
Record Email := mkEmail { to : string; subject : string; body : string }.

(* ===================================================================== *)
(** ** Exceptions *)
(* ===================================================================== *)

(** The classes of the values [execute] throws: the built-in [Error] and the
    two classes the use case declares, both [extends Error]. *)
Inductive ErrorClass :=
| Error
| NoSeatsAvailableException
| AlreadyParticipatingException.

Record Exception := mkException { class : ErrorClass; message : string }.

Definition ErrorClass_eqb (a b : ErrorClass) : bool :=
  match a, b with
  | Error, Error => true
  | NoSeatsAvailableException, NoSeatsAvailableException => true
  | AlreadyParticipatingException, AlreadyParticipatingException => true
  | _, _ => false
  end.

(** [e instanceof c]: the class itself or its superclass [Error]. *)
Definition instanceof (e : Exception) (c : ErrorClass) : bool :=
  match c with
  | Error => true
  | _ => ErrorClass_eqb (class e) c
  end.

(** [new Error(msg)] *)
Definition new_Error (msg : string) : Exception := mkException Error msg.

(** [new NoSeatsAvailableException()] *)
Definition new_NoSeatsAvailableException : Exception :=
  mkException NoSeatsAvailableException "No seats available for this webinar".

(** [new AlreadyParticipatingException()] *)
Definition new_AlreadyParticipatingException : Exception :=
  mkException AlreadyParticipatingException
              "User is already participating in this webinar".

(* ===================================================================== *)
(** ** The stores and the monad of [async] code *)
(* ===================================================================== *)

(** The four collaborators [BookSeat] is constructed with, each with the
    array it keeps. *)
Record World := mkWorld {
  webinarRepository : list Webinar.t;            (* [database] *)
  participationRepository : list Participation.t; (* [participations] *)
  userRepository : list User.t;                  (* [users] *)
  mailer : list Email                            (* [sentEmails] *)
}.

(** A settled promise: rejected with an exception or fulfilled. *)
Definition Settled (A : Type) : Type := (Exception + A)%type.

(** An [async] computation run without interruption. *)
Definition Promise (A : Type) : Type := World -> World * Settled A.

Definition ret {A} (a : A) : Promise A := fun w => (w, inr a).

Definition throw {A} (e : Exception) : Promise A := fun w => (w, inl e).

Definition bind {A B} (c : Promise A) (k : A -> Promise B) : Promise B :=
  fun w =>
    match c w with
    | (w', inr a) => k a w'
    | (w', inl e) => (w', inl e)
    end.

Declare Scope promise_scope.
Delimit Scope promise_scope with promise.
Notation "x <- c ;; k" := (bind c (fun x => k))
  (at level 61, c at next level, right associativity) : promise_scope.
Notation "c ;; k" := (bind c (fun _ => k))
  (at level 61, right associativity) : promise_scope.
Local Open Scope promise_scope.

(** [l[i] = x] for an index within the array. *)
Fixpoint replaceAt {A} (i : nat) (x : A) (l : list A) : list A :=
  match l, i with
  | [], _ => []
  | _ :: l', O => x :: l'
  | y :: l', S i' => y :: replaceAt i' x l'
  end.

(** *** [InMemoryWebinarRepository] *)

Definition database_find (db : list Webinar.t) (id : string)
  : option Webinar.t :=
  find (fun w => String.eqb (Webinar.id w) id) db.

Definition webinarRepository_create (webinar : Webinar.t) : Promise unit :=
  fun w =>
    (mkWorld (webinarRepository w ++ [webinar]) (participationRepository w)
             (userRepository w) (mailer w), inr tt).

(** [database.findIndex(...)]: [None] stands for [-1]. *)
Fixpoint database_findIndex (db : list Webinar.t) (id : string) : option nat :=
  match db with
  | [] => None
  | w :: db' =>
      if String.eqb (Webinar.id w) id then Some O
      else option_map S (database_findIndex db' id)
  end.

Definition webinarRepository_update (webinar : Webinar.t) : Promise unit :=
  fun w =>
    match database_findIndex (webinarRepository w) (Webinar.id webinar) with
    | Some index =>
        (mkWorld (replaceAt index webinar (webinarRepository w))
                 (participationRepository w) (userRepository w) (mailer w),
         inr tt)
    | None => (w, inr tt)
    end.

Definition webinarRepository_findById (id : string)
  : Promise (option Webinar.t) :=
  fun w => (w, inr (database_find (webinarRepository w) id)).

(** *** [InMemoryParticipationRepository] *)

Definition participations_of (ps : list Participation.t) (webinarId : string)
  : list Participation.t :=
  filter (fun p => String.eqb (Participation.webinarId p) webinarId) ps.

Definition participationRepository_findByWebinarId (webinarId : string)
  : Promise (list Participation.t) :=
  fun w => (w, inr (participations_of (participationRepository w) webinarId)).

Definition save_participation (participation : Participation.t) (w : World)
  : World :=
  mkWorld (webinarRepository w) (participationRepository w ++ [participation])
          (userRepository w) (mailer w).

Definition participationRepository_save (participation : Participation.t)
  : Promise unit :=
  fun w => (save_participation participation w, inr tt).

(** *** [InMemoryUserRepository] *)

Definition users_find (us : list User.t) (id : string) : option User.t :=
  find (fun user => String.eqb (User.id user) id) us.

Definition userRepository_findById (id : string) : Promise (option User.t) :=
  fun w => (w, inr (users_find (userRepository w) id)).

(** *** [InMemoryMailer] *)

Definition send_email (e : Email) (w : World) : World :=
  mkWorld (webinarRepository w) (participationRepository w)
          (userRepository w) (mailer w ++ [e]).

(** Modelled from the spec: [InMemoryMailer.send] of
    [src/core/adapters/in-memory-mailer], which is not among the sources.
    The notifier acknowledges every message; the in-memory one records it in
    [sentEmails], the array the tests read. *)
Definition mailer_send (e : Email) : Promise unit :=
  fun w => (send_email e w, inr tt).

(* ===================================================================== *)
(** ** [BookSeat.execute] *)
(* ===================================================================== *)

Record Request := mkRequest { webinarId : string; user : User.t }.

(** A template literal prints an integer in decimal. *)
Definition string_of_number (n : Z) : string :=
  NilZero.string_of_int (Z.to_int n).

(** [participations.some((p) => p.props.userId === user.props.id)] *)
Definition isAlreadyParticipating (participations : list Participation.t)
           (user : User.t) : bool :=
  existsb (fun p => String.eqb (Participation.userId p) (User.id user))
          participations.

(** [participations.length >= webinar.props.seats] *)
Definition noSeatsLeft (participations : list Participation.t)
           (webinar : Webinar.t) : bool :=
  Z.of_nat (List.length participations) >=? Webinar.seats webinar.

Definition newParticipation (req : Request) : Participation.t :=
  Participation.mk (User.id (user req)) (webinarId req).

(** The double quote character of the message body. *)
Definition quote : string := String (Ascii.ascii_of_nat 34) EmptyString.

(** The message of lines 125 to 130. *)
Definition organizerEmail (webinar : Webinar.t)
           (participations : list Participation.t) (organizer : User.t)
  : Email :=
  let remainingSeats :=
    Webinar.seats webinar - Z.of_nat (List.length participations) - 1 in
  mkEmail
    (User.email organizer)
    ("New participant in your webinar: " ++ Webinar.title webinar)%string
    ("A new participant has registered for your webinar " ++ quote
       ++ Webinar.title webinar ++ quote ++ ". There are now "
       ++ string_of_number remainingSeats ++ " seats remaining.")%string.

Definition execute (req : Request) : Promise unit :=
  (* Check if webinar exists *)
  webinar <- webinarRepository_findById (webinarId req) ;;
  match webinar with
  | None => throw (new_Error "Webinar not found")
  | Some webinar =>
    (* Get current participations *)
    participations <- participationRepository_findByWebinarId (webinarId req) ;;
    (* Check if user is already participating *)
    if isAlreadyParticipating participations (user req) then
      throw new_AlreadyParticipatingException
    (* Check available seats *)
    else if noSeatsLeft participations webinar then
      throw new_NoSeatsAvailableException
    else
      (* Create participation *)
      participationRepository_save (newParticipation req) ;;
      (* Send email to organizer *)
      organizer <- userRepository_findById (Webinar.organizerId webinar) ;;
      match organizer with
      | Some organizer =>
          mailer_send (organizerEmail webinar participations organizer)
      | None => ret tt
      end
  end.

(** Calls made one after another, each awaited inside [try]/[catch]: the
    stores are threaded through and every outcome is kept. *)
Fixpoint executeAll (reqs : list Request) (w : World)
  : World * list (Settled unit) :=
  match reqs with
  | [] => (w, [])
  | req :: reqs' =>
      let (w1, r) := execute req w in
      let (w2, rs) := executeAll reqs' w1 in
      (w2, r :: rs)
  end.

(** The requests of a list of users who book the same webinar. *)
Definition bookAll (webinarId : string) (users : list User.t) : list Request :=
  map (mkRequest webinarId) users.

(** The number of participations the store holds for a webinar. *)
Definition countFor (w : World) (webinarId : string) : nat :=
  List.length (participations_of (participationRepository w) webinarId).

(** The number of participations the store holds for a webinar and a user. *)
Definition countPair (w : World) (webinarId userId : string) : nat :=
  List.length (filter (fun p => String.eqb (Participation.userId p) userId)
                 (participations_of (participationRepository w) webinarId)).

(* ===================================================================== *)
(** ** [execute] between its [await]s *)
(* ===================================================================== *)

(** An invocation of [execute] is suspended at each [await] and resumed
    later; the in-memory repositories do their work when they are called,
    before the [await] suspends.  A task records where an invocation stands
    and the local variables it holds there. *)
Inductive Task :=
| Called (req : Request)
    (* not started *)
| AwaitWebinar (req : Request) (found : option Webinar.t)
    (* [await this.webinarRepository.findById(webinarId)] *)
| AwaitParticipations (req : Request) (webinar : Webinar.t)
                      (participations : list Participation.t)
    (* [await this.participationRepository.findByWebinarId(webinarId)] *)
| AwaitSave (req : Request) (webinar : Webinar.t)
            (participations : list Participation.t)
    (* [await this.participationRepository.save(participation)] *)
| AwaitOrganizer (req : Request) (webinar : Webinar.t)
                 (participations : list Participation.t)
                 (found : option User.t)
    (* [await this.userRepository.findById(webinar.props.organizerId)] *)
| AwaitSend
    (* [await this.mailer.send(...)] *)
| Done (r : Settled unit).

(** Runs a task up to its next [await], or to its end. *)
Definition resume (t : Task) (w : World) : World * Task :=
  match t with
  | Called req =>
      (w, AwaitWebinar req (database_find (webinarRepository w) (webinarId req)))
  | AwaitWebinar req None =>
      (w, Done (inl (new_Error "Webinar not found")))
  | AwaitWebinar req (Some webinar) =>
      (w, AwaitParticipations req webinar
            (participations_of (participationRepository w) (webinarId req)))
  | AwaitParticipations req webinar participations =>
      if isAlreadyParticipating participations (user req) then
        (w, Done (inl new_AlreadyParticipatingException))
      else if noSeatsLeft participations webinar then
        (w, Done (inl new_NoSeatsAvailableException))
      else
        (save_participation (newParticipation req) w,
         AwaitSave req webinar participations)
  | AwaitSave req webinar participations =>
      (w, AwaitOrganizer req webinar participations
            (users_find (userRepository w) (Webinar.organizerId webinar)))
  | AwaitOrganizer req webinar participations (Some organizer) =>
      (send_email (organizerEmail webinar participations organizer) w,
       AwaitSend)
  | AwaitOrganizer req webinar participations None =>
      (w, Done (inr tt))
  | AwaitSend => (w, Done (inr tt))
  | Done r => (w, Done r)
  end.

(** [resume] repeated [n] times on one task. *)
Fixpoint resumeN (n : nat) (t : Task) (w : World) : World * Task :=
  match n with
  | O => (w, t)
  | S n' => let (w', t') := resume t w in resumeN n' t' w'
  end.

(** No invocation has more than five [await]s. *)
Definition maxResumes : nat := 6.

(** The scheduler resumes the task of index [i]. *)
Definition stepAt (i : nat) (s : World * list Task) : World * list Task :=
  match nth_error (snd s) i with
  | Some t => let (w', t') := resume t (fst s) in (w', replaceAt i t' (snd s))
  | None => s
  end.

(** A schedule names, in order, the task resumed at each turn. *)
Fixpoint runSchedule (sched : list nat) (s : World * list Task)
  : World * list Task :=
  match sched with
  | [] => s
  | i :: sched' => runSchedule sched' (stepAt i s)
  end.

(** The schedule that runs each task of [order] to its end before the next
    one starts. *)
Definition serial (order : list nat) : list nat :=
  flat_map (fun i => repeat i maxResumes) order.

(** Whether a task may still save a participation for [webinarId]. *)
Definition mayStillSave (webinarId' : string) (t : Task) : bool :=
  match t with
  | Called req | AwaitWebinar req _ | AwaitParticipations req _ _ =>
      String.eqb (webinarId req) webinarId'
  | _ => false
  end.

(** What a task may still add to the count of a webinar. *)
Definition owes (webinarId' : string) (t : Task) : nat :=
  if mayStillSave webinarId' t then 1%nat else 0%nat.

Definition pendingFor (webinarId' : string) (pool : list Task) : nat :=
  List.length (filter (mayStillSave webinarId') pool).

(* ===================================================================== *)
(** ** The values of the use case's tests *)
(* ===================================================================== *)

Module Fixture.

Definition user : User.t := User.mk "user-1" "user@test.com" "password123".

Definition organizer : User.t :=
  User.mk "organizer-id" "organizer@test.com" "password123".

(** [new Date('2024-02-01')] is 1706745600000 ms after the epoch. *)
Definition webinar : Webinar.t :=
  Webinar.mk "webinar-1" (User.id organizer) "Test Webinar"
             1706745600000 1706745600000 2 None.

(** The stores of the happy path: the webinar created, the organizer
    known, nothing booked, nothing sent. *)
Definition world : World := mkWorld [webinar] [] [organizer] [].

Definition request : Request := mkRequest (Webinar.id webinar) user.

Definition existing (userId : string) : Participation.t :=
  Participation.mk userId (Webinar.id webinar).

(** The stores of the scenario with no seats left. *)
Definition fullWorld : World :=
  mkWorld [webinar] [existing "existing-user-1"; existing "existing-user-2"]
          [organizer] [].

(** The stores of the scenario where the user already participates. *)
Definition bookedWorld : World :=
  mkWorld [webinar] [existing (User.id user)] [organizer] [].

(** The stores of the scenario with an unknown webinar. *)
Definition emptyWorld : World := mkWorld [] [] [organizer] [].

Definition missingRequest : Request := mkRequest "non-existent-id" user.

(** The stores of the scenario where the organizer is unknown. *)
Definition orphanWorld : World := mkWorld [webinar] [] [] [].

(** A second user and a webinar with a single seat, for two invocations
    started together. *)
Definition other : User.t := User.mk "user-2" "other@test.com" "password123".

Definition smallWebinar : Webinar.t :=
  Webinar.mk "webinar-1" (User.id organizer) "Test Webinar"
             1706745600000 1706745600000 1 None.

Definition smallWorld : World := mkWorld [smallWebinar] [] [organizer] [].

Definition otherRequest : Request := mkRequest (Webinar.id webinar) other.

(** Two invocations started in the same turn take turns at every
    [await]. *)
Definition roundRobin : list nat := [0; 1; 0; 1; 0; 1; 0; 1; 0; 1; 0; 1]%nat.

End Fixture.

(* ===================================================================== *)
(** ** Measures used by the statements below *)
(* ===================================================================== *)

(** The requests of [reqs] whose call returned, [results] being the
    outcomes in the same order. *)
Fixpoint booked (reqs : list Request) (results : list (Settled unit))
  : list Request :=
  match reqs, results with
  | req :: reqs', inr _ :: results' => req :: booked reqs' results'
  | _ :: reqs', inl _ :: results' => booked reqs' results'
  | _, _ => []
  end.

(** How many times a task can still be resumed before it has ended. *)
Definition remainingResumes (t : Task) : nat :=
  match t with
  | Called _ => 6
  | AwaitWebinar _ _ => 5
  | AwaitParticipations _ _ _ => 4
  | AwaitSave _ _ _ => 3
  | AwaitOrganizer _ _ _ _ => 2
  | AwaitSend => 1
  | Done _ => 0
  end%nat.

(** What a suspended task holds of webinar [e], when the repository has
    record [wb] for it and the store the participations [ps]. *)
Definition holdsCurrent (e : string) (wb : Webinar.t)
           (ps : list Participation.t) (t : Task) : Prop :=
  match t with
  | AwaitWebinar req found => webinarId req = e -> found = Some wb
  | AwaitParticipations req webinar participations =>
      webinarId req = e -> webinar = wb /\ participations = ps
  | _ => True
  end.

(* ===================================================================== *)
(** ** The [Webinar] entity *)
(* ===================================================================== *)

(** C9, as the claim has it, is false: [hasAvailableSeats] takes no count.
    It reads the entity's cached participants, so it is not decided by a
    count compared with [seats]: the test webinar, with two seats and no
    cached participants, has available seats while its store holds two
    participations. *)
Lemma hasCapacity_not_of_supplied_count :
  ~ (forall (w : Webinar.t) (currentRegistrationCount : Z),
        Webinar.hasAvailableSeats w = true <->
        currentRegistrationCount < Webinar.seats w).
Proof.
  intros H.
  assert (Hw : Webinar.hasAvailableSeats Fixture.webinar = true)
    by reflexivity.
  apply (H Fixture.webinar (Z.of_nat (countFor Fixture.fullWorld "webinar-1")))
    in Hw.
  vm_compute in Hw. discriminate Hw.
Qed.

(** C9 (amended): [hasAvailableSeats()] is true exactly when the length of
    the webinar's cached participants list, empty when the list is absent,
    is strictly less than [seats]. *)
Theorem hasAvailableSeats_spec (w : Webinar.t) :
  Webinar.hasAvailableSeats w = true <->
  Z.of_nat (List.length (Webinar.participantsOrEmpty w)) < Webinar.seats w.
Proof.
  unfold Webinar.hasAvailableSeats. apply Z.ltb_lt.
Qed.

(** C10: [addParticipant(u)] appends [u] to the cached participants whatever
    the list holds and however many seats remain (nothing is assumed of
    either): its length grows by one and [getRemainingSeats()] drops by one,
    so also when [u] is already a participant and when no seat remains. *)
Theorem addParticipant_appends (w : Webinar.t) (u : string) :
  Webinar.participants (Webinar.addParticipant w u)
    = Some (Webinar.participantsOrEmpty w ++ [u])
  /\ List.length (Webinar.participantsOrEmpty (Webinar.addParticipant w u))
     = S (List.length (Webinar.participantsOrEmpty w))
  /\ Webinar.getRemainingSeats (Webinar.addParticipant w u)
     = Webinar.getRemainingSeats w - 1
  /\ Webinar.seats (Webinar.addParticipant w u) = Webinar.seats w.
Proof.
  assert (Hlen :
    List.length (Webinar.participantsOrEmpty (Webinar.addParticipant w u))
    = S (List.length (Webinar.participantsOrEmpty w))).
  { unfold Webinar.addParticipant, Webinar.participantsOrEmpty at 1. simpl.
    rewrite length_app. simpl. lia. }
  assert (Hrem : Webinar.getRemainingSeats (Webinar.addParticipant w u)
                 = Webinar.getRemainingSeats w - 1).
  { unfold Webinar.getRemainingSeats. rewrite Hlen.
    unfold Webinar.addParticipant. simpl. lia. }
  repeat split; auto.
Qed.

(** The entity neither rejects a participant it already has nor one beyond
    its seats: a webinar with one seat takes the same user twice. *)
Example addParticipant_twice :
  let w := Webinar.addParticipant
             (Webinar.addParticipant Fixture.smallWebinar "user-1") "user-1" in
  Webinar.participants w = Some ["user-1"; "user-1"]
  /\ Webinar.getRemainingSeats w = -1.
Proof. split; reflexivity. Qed.

(* ===================================================================== *)
(** ** One call of [execute] *)
(* ===================================================================== *)

(** [execute] with its binds run: the order of its checks and what each
    path leaves in the stores. *)
Lemma execute_unfold (req : Request) (w : World) :
  execute req w =
  match database_find (webinarRepository w) (webinarId req) with
  | None => (w, inl (new_Error "Webinar not found"))
  | Some webinar =>
      let participations :=
        participations_of (participationRepository w) (webinarId req) in
      if isAlreadyParticipating participations (user req) then
        (w, inl new_AlreadyParticipatingException)
      else if noSeatsLeft participations webinar then
        (w, inl new_NoSeatsAvailableException)
      else
        let w1 := save_participation (newParticipation req) w in
        match users_find (userRepository w) (Webinar.organizerId webinar) with
        | Some organizer =>
            (send_email (organizerEmail webinar participations organizer) w1,
             inr tt)
        | None => (w1, inr tt)
        end
  end.
Proof.
  unfold execute, bind, webinarRepository_findById,
    participationRepository_findByWebinarId, participationRepository_save,
    userRepository_findById, mailer_send, throw, ret.
  destruct (database_find (webinarRepository w) (webinarId req)) as [wb|];
    [|reflexivity].
  cbv zeta.
  destruct (isAlreadyParticipating _ (user req)); [reflexivity|].
  destruct (noSeatsLeft _ wb); [reflexivity|].
  simpl.
  destruct (users_find (userRepository w) (Webinar.organizerId wb));
    reflexivity.
Qed.

(** Splits a goal or hypothesis about [execute req w] into its five paths. *)
Ltac execute_paths req w :=
  rewrite (execute_unfold req w) in *; cbv zeta in *;
  destruct (database_find (webinarRepository w) (webinarId req)) eqn:Hfind;
  [ destruct (isAlreadyParticipating
                (participations_of (participationRepository w) (webinarId req))
                (user req)) eqn:Halready;
    [ | destruct (noSeatsLeft
                    (participations_of (participationRepository w)
                                       (webinarId req)) _) eqn:Hfull;
        [ | destruct (users_find (userRepository w) _) eqn:Horganizer ] ]
  | ].

Lemma isAlreadyParticipating_true (ps : list Participation.t) (u : User.t) :
  isAlreadyParticipating ps u = true <->
  exists p, In p ps /\ Participation.userId p = User.id u.
Proof.
  unfold isAlreadyParticipating. rewrite existsb_exists.
  split; intros [p [Hin Hp]]; exists p; split; auto.
  - now apply String.eqb_eq.
  - now apply String.eqb_eq.
Qed.

Lemma noSeatsLeft_true (ps : list Participation.t) (wb : Webinar.t) :
  noSeatsLeft ps wb = true <-> Z.of_nat (List.length ps) >= Webinar.seats wb.
Proof.
  unfold noSeatsLeft. rewrite Z.geb_le. lia.
Qed.

Lemma noSeatsLeft_false (ps : list Participation.t) (wb : Webinar.t) :
  noSeatsLeft ps wb = false <-> Z.of_nat (List.length ps) < Webinar.seats wb.
Proof.
  rewrite <- Bool.not_true_iff_false, noSeatsLeft_true. lia.
Qed.

(** C4: a call that throws leaves the four stores as they were, so the
    participations of the webinar are unchanged and no e-mail is sent; and
    what it throws is one of the three failures. *)
Theorem execute_failure_no_effect (req : Request) (w w' : World)
        (e : Exception) :
  execute req w = (w', inl e) ->
  w' = w
  /\ participations_of (participationRepository w') (webinarId req)
     = participations_of (participationRepository w) (webinarId req)
  /\ mailer w' = mailer w
  /\ (e = new_Error "Webinar not found"
      \/ e = new_AlreadyParticipatingException
      \/ e = new_NoSeatsAvailableException).
Proof.
  intros H.
  assert (Hw : w' = w
               /\ (e = new_Error "Webinar not found"
                   \/ e = new_AlreadyParticipatingException
                   \/ e = new_NoSeatsAvailableException)).
  { execute_paths req w; inversion H; subst; auto. }
  destruct Hw as [-> He]. auto.
Qed.

Lemma execute_failure_no_effect_witness :
  execute Fixture.request Fixture.fullWorld
  = (Fixture.fullWorld, inl new_NoSeatsAvailableException)
  /\ Fixture.fullWorld = Fixture.fullWorld.
Proof.
  split; [reflexivity|].
  apply (execute_failure_no_effect Fixture.request Fixture.fullWorld
           Fixture.fullWorld new_NoSeatsAvailableException).
  reflexivity.
Defined.

(** C5: when the webinar exists, [execute] throws
    [AlreadyParticipatingException] exactly when a participation of that
    webinar carries the user's id, whatever the number of seats, hence also
    when the webinar is full; when none does, it throws
    [NoSeatsAvailableException] exactly when the number of participations of
    the webinar is at least [seats]. *)
Theorem execute_checks_in_order (req : Request) (w : World)
        (webinar : Webinar.t) :
  database_find (webinarRepository w) (webinarId req) = Some webinar ->
  let participations :=
    participations_of (participationRepository w) (webinarId req) in
  let registered :=
    exists p, In p participations
              /\ Participation.userId p = User.id (user req) in
  (snd (execute req w) = inl new_AlreadyParticipatingException <-> registered)
  /\ (registered ->
      Z.of_nat (List.length participations) >= Webinar.seats webinar ->
      snd (execute req w) = inl new_AlreadyParticipatingException)
  /\ (~ registered ->
      (snd (execute req w) = inl new_NoSeatsAvailableException <->
       Z.of_nat (List.length participations) >= Webinar.seats webinar)).
Proof.
  intros Hw participations registered.
  assert (Hreg : isAlreadyParticipating participations (user req) = true
                 <-> registered) by apply isAlreadyParticipating_true.
  assert (Hcap := noSeatsLeft_true participations webinar).
  subst participations.
  rewrite (execute_unfold req w), Hw. cbv zeta.
  destruct (isAlreadyParticipating _ (user req)).
  - assert (Hr : registered) by now apply Hreg.
    simpl. split; [|split]; [tauto | auto | intros Hn; contradiction].
  - assert (Hnot : ~ registered).
    { intros Hr. apply Hreg in Hr. discriminate. }
    split; [|split].
    + split; [|tauto].
      destruct (noSeatsLeft _ webinar); [discriminate|].
      destruct (users_find _ _); discriminate.
    + tauto.
    + intros _.
      destruct (noSeatsLeft _ webinar).
      * split; auto. intros _. now apply Hcap.
      * split.
        -- destruct (users_find _ _); discriminate.
        -- intros Hge. apply Hcap in Hge. discriminate.
Qed.

Lemma execute_checks_in_order_witness :
  database_find (webinarRepository Fixture.bookedWorld)
                (webinarId Fixture.request) = Some Fixture.webinar
  /\ snd (execute Fixture.request Fixture.bookedWorld)
     = inl new_AlreadyParticipatingException.
Proof.
  split; [reflexivity|].
  destruct (execute_checks_in_order Fixture.request Fixture.bookedWorld
              Fixture.webinar eq_refl) as [[_ Hregistered] _].
  apply Hregistered.
  exists (Fixture.existing "user-1"). split; [left|]; reflexivity.
Defined.

(** C6, as the claim has it, is false: for a webinar that does not exist
    [execute] throws a plain [Error], the class every exception belongs to;
    no class of its own marks this failure. *)
Lemma webinar_not_found_has_no_class_of_its_own :
  database_find (webinarRepository Fixture.emptyWorld)
                (webinarId Fixture.missingRequest) = None
  /\ ~ (exists e, snd (execute Fixture.missingRequest Fixture.emptyWorld)
                  = inl e /\ class e <> Error).
Proof.
  split; [reflexivity|].
  intros [e [He Hclass]]. vm_compute in He. inversion He; subst.
  apply Hclass. reflexivity.
Qed.

(** C6 (amended): [execute] throws a plain [Error] whose message is
    ["Webinar not found"] exactly when no webinar has the given id, and the
    stores are then untouched.  This failure has no class of its own: its
    class is [Error], which the two other failures, whose classes extend
    it, are instances of as well; it is told apart from them by not being
    an instance of their classes and by its message. *)
Theorem execute_webinar_not_found (req : Request) (w : World) :
  let e := new_Error "Webinar not found" in
  (database_find (webinarRepository w) (webinarId req) = None
   <-> execute req w = (w, inl e))
  /\ (snd (execute req w) = inl e
      <-> database_find (webinarRepository w) (webinarId req) = None)
  /\ class e = Error
  /\ instanceof e NoSeatsAvailableException = false
  /\ instanceof e AlreadyParticipatingException = false
  /\ instanceof new_NoSeatsAvailableException Error = true
  /\ instanceof new_AlreadyParticipatingException Error = true
  /\ message e <> message new_NoSeatsAvailableException
  /\ message e <> message new_AlreadyParticipatingException.
Proof.
  intros e.
  assert (Hiff : snd (execute req w) = inl e
                 <-> database_find (webinarRepository w) (webinarId req)
                     = None).
  { rewrite (execute_unfold req w).
    destruct (database_find (webinarRepository w) (webinarId req)) as [wb|];
      [|split; reflexivity].
    cbv zeta. split; [|discriminate].
    destruct (isAlreadyParticipating _ (user req)); [discriminate|].
    destruct (noSeatsLeft _ wb); [discriminate|].
    destruct (users_find _ _); discriminate. }
  split; [|split; [exact Hiff|repeat split; try reflexivity; discriminate]].
  split.
  - intros Hfind. now rewrite (execute_unfold req w), Hfind.
  - intros Hex. apply Hiff. now rewrite Hex.
Qed.

(** The fifth scenario of the specification. *)
Example missing_webinar :
  execute Fixture.missingRequest Fixture.emptyWorld
  = (Fixture.emptyWorld, inl (new_Error "Webinar not found")).
Proof. reflexivity. Qed.

(** What a call that returns has done. *)
Lemma execute_success_inv (req : Request) (w w' : World) :
  execute req w = (w', inr tt) ->
  exists webinar,
    database_find (webinarRepository w) (webinarId req) = Some webinar
    /\ isAlreadyParticipating
         (participations_of (participationRepository w) (webinarId req))
         (user req) = false
    /\ noSeatsLeft
         (participations_of (participationRepository w) (webinarId req))
         webinar = false
    /\ webinarRepository w' = webinarRepository w
    /\ participationRepository w'
       = participationRepository w ++ [newParticipation req]
    /\ userRepository w' = userRepository w
    /\ mailer w'
       = mailer w ++
         match users_find (userRepository w) (Webinar.organizerId webinar) with
         | Some organizer =>
             [organizerEmail webinar
                (participations_of (participationRepository w) (webinarId req))
                organizer]
         | None => []
         end.
Proof.
  intros H. execute_paths req w; inversion H; subst; clear H.
  - exists t. rewrite Horganizer. simpl. repeat split; auto.
  - exists t. rewrite Horganizer, app_nil_r. simpl. repeat split; auto.
Qed.

(** When a call returns depends on the webinars and the participations
    only. *)
Lemma execute_success_iff (req : Request) (w : World) :
  snd (execute req w) = inr tt <->
  exists webinar,
    database_find (webinarRepository w) (webinarId req) = Some webinar
    /\ isAlreadyParticipating
         (participations_of (participationRepository w) (webinarId req))
         (user req) = false
    /\ noSeatsLeft
         (participations_of (participationRepository w) (webinarId req))
         webinar = false.
Proof.
  split.
  - intros H. destruct (execute req w) as [w' r] eqn:E. simpl in H. subst r.
    destruct (execute_success_inv _ _ _ E) as [wb [H1 [H2 [H3 _]]]].
    now exists wb.
  - intros [wb [H1 [H2 H3]]]. rewrite (execute_unfold req w), H1. cbv zeta.
    rewrite H2, H3. destruct (users_find _ _); reflexivity.
Qed.

(** C7: a call that returns has sent one e-mail when the organizer is found
    in the user repository and none when not; the e-mail goes to the
    organizer, its subject and body hold the title of the webinar, and the
    body gives [seats] minus the number of participations before this one,
    minus one, as the seats remaining.  Whether the organizer is found has
    no part in the call returning: it returns with any user repository. *)
Theorem notification_on_success (req : Request) (w w' : World) :
  execute req w = (w', inr tt) ->
  exists webinar,
    database_find (webinarRepository w) (webinarId req) = Some webinar
    /\ participationRepository w'
       = participationRepository w ++ [newParticipation req]
    /\ (forall users,
          snd (execute req (mkWorld (webinarRepository w)
                                    (participationRepository w)
                                    users (mailer w))) = inr tt)
    /\ match users_find (userRepository w) (Webinar.organizerId webinar) with
       | None => mailer w' = mailer w
       | Some organizer =>
           mailer w' = mailer w ++
             [mkEmail
                (User.email organizer)
                ("New participant in your webinar: "
                   ++ Webinar.title webinar)%string
                ("A new participant has registered for your webinar " ++ quote
                   ++ Webinar.title webinar ++ quote ++ ". There are now "
                   ++ string_of_number
                        (Webinar.seats webinar
                         - Z.of_nat (countFor w (webinarId req)) - 1)
                   ++ " seats remaining.")%string]
       end.
Proof.
  intros H.
  destruct (execute_success_inv _ _ _ H)
    as [wb [Hfind [Halready [Hfull [_ [Hsaved [_ Hmail]]]]]]].
  exists wb. repeat split; auto.
  - intros users. apply execute_success_iff. exists wb. simpl. auto.
  - destruct (users_find (userRepository w) (Webinar.organizerId wb)).
    + rewrite Hmail. reflexivity.
    + rewrite Hmail. apply app_nil_r.
Qed.

Lemma notification_on_success_witness :
  execute Fixture.request Fixture.world
  = (mkWorld [Fixture.webinar] [Fixture.existing "user-1"]
             [Fixture.organizer]
             [mkEmail "organizer@test.com"
                      "New participant in your webinar: Test Webinar"
                      ("A new participant has registered for your webinar "
                         ++ quote ++ "Test Webinar" ++ quote
                         ++ ". There are now 1 seats remaining.")%string],
     inr tt)
  /\ exists webinar,
      database_find (webinarRepository Fixture.world)
                    (webinarId Fixture.request) = Some webinar.
Proof.
  split; [reflexivity|].
  destruct (notification_on_success Fixture.request Fixture.world _ eq_refl)
    as [webinar [Hfind _]].
  exists webinar. exact Hfind.
Defined.

(** The two last scenarios of the tests: an organizer found gets the e-mail
    with one seat remaining, an organizer unknown gets nothing and the
    participation is saved all the same. *)
Example organizer_unknown :
  execute Fixture.request Fixture.orphanWorld
  = (mkWorld [Fixture.webinar] [Fixture.existing "user-1"] [] [], inr tt).
Proof. reflexivity. Qed.

(** C8: [execute] leaves the webinar repository as it was, whether it
    returns or throws: every webinar keeps its seats, title, organizer and
    cached participants, and looking a webinar up gives what it gave before;
    the user who books is not added to the cached participants. *)
Theorem execute_keeps_webinars (req : Request) (w : World) :
  webinarRepository (fst (execute req w)) = webinarRepository w
  /\ forall id,
       database_find (webinarRepository (fst (execute req w))) id
       = database_find (webinarRepository w) id.
Proof.
  assert (H : webinarRepository (fst (execute req w)) = webinarRepository w).
  { execute_paths req w; reflexivity. }
  split; [exact H|]. intros id. now rewrite H.
Qed.

(** After the booking of the happy path the webinar still has no cached
    participants, and the entity still counts two seats remaining. *)
Example booked_user_not_cached :
  let w' := fst (execute Fixture.request Fixture.world) in
  countFor w' "webinar-1" = 1%nat
  /\ option_map Webinar.participants (database_find (webinarRepository w')
                                                    "webinar-1")
     = Some None
  /\ option_map Webinar.getRemainingSeats
                (database_find (webinarRepository w') "webinar-1")
     = Some 2.
Proof. repeat split; reflexivity. Qed.

(* ===================================================================== *)
(** ** Calls made one after another *)
(* ===================================================================== *)

Lemma participations_of_snoc (ps : list Participation.t)
      (p : Participation.t) (e : string) :
  participations_of (ps ++ [p]) e
  = participations_of ps e
    ++ (if String.eqb (Participation.webinarId p) e then [p] else []).
Proof.
  unfold participations_of. rewrite filter_app. reflexivity.
Qed.

(** The store after a call: one participation more when the call returned,
    the same when it threw. *)
Lemma execute_participations (req : Request) (w : World) :
  participationRepository (fst (execute req w))
  = participationRepository w
    ++ match snd (execute req w) with
       | inr _ => [newParticipation req]
       | inl _ => []
       end.
Proof.
  execute_paths req w; simpl; now rewrite ?app_nil_r.
Qed.

Lemma execute_webinarRepository (req : Request) (w : World) :
  webinarRepository (fst (execute req w)) = webinarRepository w.
Proof.
  execute_paths req w; reflexivity.
Qed.

Lemma executeAll_cons (req : Request) (reqs : list Request) (w : World) :
  executeAll (req :: reqs) w
  = (fst (executeAll reqs (fst (execute req w))),
     snd (execute req w) :: snd (executeAll reqs (fst (execute req w)))).
Proof.
  simpl. destruct (execute req w) as [w1 r]. simpl.
  destruct (executeAll reqs w1). reflexivity.
Qed.

Lemma executeAll_webinarRepository (reqs : list Request) (w : World) :
  webinarRepository (fst (executeAll reqs w)) = webinarRepository w.
Proof.
  revert w. induction reqs as [|req reqs IH]; intros w; [reflexivity|].
  rewrite executeAll_cons. simpl. rewrite IH.
  apply execute_webinarRepository.
Qed.

Lemma existsb_false_filter {A} (f : A -> bool) (l : list A) :
  existsb f l = false -> filter f l = [].
Proof.
  induction l as [|a l IH]; simpl; [reflexivity|].
  destruct (f a); simpl; [discriminate|]. exact IH.
Qed.

(** The count of a webinar after a call: one more exactly when the call was
    for that webinar and returned. *)
Lemma execute_countFor (req : Request) (w : World) (e : string) :
  countFor (fst (execute req w)) e
  = (countFor w e
     + match snd (execute req w) with
       | inr _ => if String.eqb (webinarId req) e then 1 else 0
       | inl _ => 0
       end)%nat.
Proof.
  unfold countFor. rewrite execute_participations.
  destruct (snd (execute req w)).
  - rewrite app_nil_r. lia.
  - rewrite participations_of_snoc, length_app. simpl.
    destruct (String.eqb (webinarId req) e); reflexivity.
Qed.

(** A call never takes a webinar beyond its seats. *)
Lemma execute_capacity (req : Request) (w : World) (e : string)
      (wb : Webinar.t) :
  database_find (webinarRepository w) e = Some wb ->
  Z.of_nat (countFor w e) <= Webinar.seats wb ->
  Z.of_nat (countFor (fst (execute req w)) e) <= Webinar.seats wb.
Proof.
  intros Hfind Hle. rewrite execute_countFor.
  destruct (snd (execute req w)) as [ex|[]] eqn:Hr; [lia|].
  destruct (String.eqb_spec (webinarId req) e) as [He|]; [|lia].
  apply execute_success_iff in Hr. destruct Hr as [wb' [Hf [_ Hfull]]].
  rewrite He, Hfind in Hf. inversion Hf; subst wb'.
  apply noSeatsLeft_false in Hfull. rewrite He in Hfull.
  unfold countFor. lia.
Qed.

(** A call never gives a user a second participation in a webinar. *)
Lemma execute_unique (req : Request) (w : World) (e id : string) :
  (countPair w e id <= 1)%nat ->
  (countPair (fst (execute req w)) e id <= 1)%nat.
Proof.
  intros Hle. unfold countPair in *. rewrite execute_participations.
  destruct (snd (execute req w)) as [ex|[]] eqn:Hr.
  - now rewrite app_nil_r.
  - rewrite participations_of_snoc. simpl.
    destruct (String.eqb_spec (webinarId req) e) as [He|];
      [|now rewrite app_nil_r].
    rewrite filter_app, length_app. simpl.
    destruct (String.eqb_spec (User.id (user req)) id) as [Hid|];
      [|simpl; lia].
    apply execute_success_iff in Hr. destruct Hr as [wb' [_ [Hnew _]]].
    apply existsb_false_filter in Hnew. rewrite He, Hid in Hnew.
    rewrite Hnew. simpl. lia.
Qed.

Lemma executeAll_capacity (reqs : list Request) (w : World) (e : string)
      (wb : Webinar.t) :
  database_find (webinarRepository w) e = Some wb ->
  Z.of_nat (countFor w e) <= Webinar.seats wb ->
  Z.of_nat (countFor (fst (executeAll reqs w)) e) <= Webinar.seats wb.
Proof.
  revert w. induction reqs as [|req reqs IH]; intros w Hfind Hle; [exact Hle|].
  rewrite executeAll_cons. simpl. apply IH.
  - now rewrite execute_webinarRepository.
  - now apply execute_capacity.
Qed.

Lemma executeAll_unique (reqs : list Request) (w : World) (e id : string) :
  (countPair w e id <= 1)%nat ->
  (countPair (fst (executeAll reqs w)) e id <= 1)%nat.
Proof.
  revert w. induction reqs as [|req reqs IH]; intros w Hle; [exact Hle|].
  rewrite executeAll_cons. simpl. apply IH. now apply execute_unique.
Qed.

(** A user who participates in a webinar that exists is turned away, and
    the stores stay as they are. *)
Lemma execute_registered (e : string) (u : User.t) (w : World)
      (wb : Webinar.t) :
  database_find (webinarRepository w) e = Some wb ->
  isAlreadyParticipating (participations_of (participationRepository w) e) u
  = true ->
  execute (mkRequest e u) w = (w, inl new_AlreadyParticipatingException).
Proof.
  intros Hfind Hreg. rewrite execute_unfold. simpl.
  now rewrite Hfind, Hreg.
Qed.

(** Participating is for good: no later call, by anyone, undoes it. *)
Lemma executeAll_registered (reqs : list Request) (e : string) (u : User.t)
      (w : World) :
  isAlreadyParticipating (participations_of (participationRepository w) e) u
  = true ->
  isAlreadyParticipating
    (participations_of (participationRepository (fst (executeAll reqs w))) e) u
  = true.
Proof.
  revert w. induction reqs as [|req reqs IH]; intros w Hreg; [exact Hreg|].
  rewrite executeAll_cons. simpl. apply IH.
  rewrite execute_participations.
  destruct (snd (execute req w)); [now rewrite app_nil_r|].
  rewrite participations_of_snoc. unfold isAlreadyParticipating in *.
  rewrite existsb_app, Hreg. reflexivity.
Qed.

(** A call that returns leaves its user participating. *)
Lemma execute_success_registers (req : Request) (w w' : World) :
  execute req w = (w', inr tt) ->
  isAlreadyParticipating
    (participations_of (participationRepository w') (webinarId req)) (user req)
  = true.
Proof.
  intros H. destruct (execute_success_inv _ _ _ H)
    as [wb [_ [_ [_ [_ [Hsaved _]]]]]].
  rewrite Hsaved, participations_of_snoc. simpl.
  rewrite String.eqb_refl. unfold isAlreadyParticipating.
  rewrite existsb_app. simpl. rewrite String.eqb_refl.
  now rewrite orb_true_r.
Qed.

(** Users with distinct ids, none of them participating yet, book one after
    another: the count climbs to [seats] and stays there. *)
Lemma bookAll_count (e : string) (wb : Webinar.t) (users : list User.t) :
  NoDup (map User.id users) ->
  forall w,
    database_find (webinarRepository w) e = Some wb ->
    (forall u, In u users ->
       isAlreadyParticipating
         (participations_of (participationRepository w) e) u = false) ->
    Z.of_nat (countFor (fst (executeAll (bookAll e users) w)) e)
    = Z.max (Z.of_nat (countFor w e))
            (Z.min (Webinar.seats wb)
                   (Z.of_nat (countFor w e) + Z.of_nat (List.length users))).
Proof.
  induction users as [|u users IH]; intros Hnd w Hfind Hnew.
  - simpl. lia.
  - inversion Hnd as [|x l Hnotin Hnd']; subst.
    unfold bookAll. simpl map. rewrite executeAll_cons. simpl fst.
    fold (bookAll e users).
    set (req := mkRequest e u).
    rewrite (IH Hnd' (fst (execute req w))).
    + rewrite execute_countFor.
      destruct (snd (execute req w)) as [ex|[]] eqn:Hr.
      * (* turned away: no seat was left *)
        assert (Hfull : Z.of_nat (countFor w e) >= Webinar.seats wb).
        { destruct (Z_lt_ge_dec (Z.of_nat (countFor w e)) (Webinar.seats wb))
            as [Hlt|Hge]; [|exact Hge].
          exfalso.
          assert (Hok : snd (execute req w) = inr tt).
          { apply execute_success_iff. exists wb. simpl.
            repeat split; auto.
            - apply Hnew. now left.
            - apply noSeatsLeft_false. exact Hlt. }
          rewrite Hr in Hok. discriminate. }
        simpl List.length. lia.
      * (* booked: a seat was left *)
        apply execute_success_iff in Hr.
        destruct Hr as [wb' [Hf [_ Hfull]]]. simpl in Hf, Hfull.
        rewrite Hfind in Hf. inversion Hf; subst wb'.
        apply noSeatsLeft_false in Hfull. fold (countFor w e) in Hfull.
        simpl webinarId. rewrite String.eqb_refl. simpl List.length. lia.
    + now rewrite execute_webinarRepository.
    + intros u' Hin. rewrite execute_participations.
      destruct (snd (execute req w));
        [rewrite app_nil_r; apply Hnew; now right|].
      rewrite participations_of_snoc. unfold isAlreadyParticipating.
      rewrite existsb_app. fold (isAlreadyParticipating
        (participations_of (participationRepository w) e) u').
      rewrite (Hnew u' (or_intror Hin)). simpl.
      rewrite String.eqb_refl. simpl. rewrite orb_false_r.
      apply String.eqb_neq. intros Heq. apply Hnotin.
      rewrite Heq. now apply in_map.
Qed.

(** C1: a webinar of the repository has [seats] seats, a number that is not
    negative, and no participation yet; users with distinct ids book it one
    after another.  Then the store holds, for that webinar, the minimum of
    [seats] and the number of users, which is at most [seats]. *)
Theorem capacity_invariant (w : World) (e : string) (wb : Webinar.t)
        (users : list User.t) :
  database_find (webinarRepository w) e = Some wb ->
  0 <= Webinar.seats wb ->
  participations_of (participationRepository w) e = [] ->
  NoDup (map User.id users) ->
  let w' := fst (executeAll (bookAll e users) w) in
  Z.of_nat (countFor w' e)
  = Z.min (Webinar.seats wb) (Z.of_nat (List.length users))
  /\ Z.of_nat (countFor w' e) <= Webinar.seats wb.
Proof.
  intros Hfind Hseats Hempty Hnd w'.
  assert (H : Z.of_nat (countFor w' e)
              = Z.min (Webinar.seats wb) (Z.of_nat (List.length users))).
  { subst w'. rewrite (bookAll_count e wb users Hnd w Hfind).
    - unfold countFor. rewrite Hempty. simpl. lia.
    - intros u _. rewrite Hempty. reflexivity. }
  split; [exact H | lia].
Qed.

Lemma capacity_invariant_witness :
  database_find (webinarRepository Fixture.world) "webinar-1"
  = Some Fixture.webinar
  /\ Z.of_nat (countFor
       (fst (executeAll
               (bookAll "webinar-1"
                  [Fixture.user; Fixture.other; Fixture.organizer])
               Fixture.world))
       "webinar-1")
     = Z.min (Webinar.seats Fixture.webinar) 3.
Proof.
  split; [reflexivity|].
  apply (capacity_invariant Fixture.world "webinar-1" Fixture.webinar
           [Fixture.user; Fixture.other; Fixture.organizer]).
  - reflexivity.
  - vm_compute. discriminate.
  - reflexivity.
  - repeat constructor; simpl; intuition discriminate.
Defined.

(** The first three scenarios of the specification, in a row: two seats,
    three users; the third is turned away. *)
Example three_users_two_seats :
  let (w', results) :=
    executeAll (bookAll "webinar-1"
                  [Fixture.user; Fixture.other; Fixture.organizer])
               Fixture.world in
  countFor w' "webinar-1" = 2%nat
  /\ results = [inr tt; inr tt; inl new_NoSeatsAvailableException]
  /\ List.length (mailer w') = 2%nat.
Proof. vm_compute. repeat split; reflexivity. Qed.

(** C3: in a store where a user has at most one participation in a webinar,
    no sequence of calls, by this user or by others, gives the user a
    second one.  Once a call of the user has returned, or when the user
    participates from the start in a webinar that exists, every later call
    of the user for that webinar, whatever calls came between, throws
    [AlreadyParticipatingException] and leaves the four stores as they
    were: no participation is added and the count of the webinar stays. *)
Theorem duplicate_invariant (e : string) (u : User.t) (w : World) :
  (countPair w e (User.id u) <= 1)%nat ->
  let req := mkRequest e u in
  (forall reqs,
     (countPair (fst (executeAll reqs w)) e (User.id u) <= 1)%nat)
  /\ (forall w1 reqs,
        execute req w = (w1, inr tt) ->
        let w' := fst (executeAll reqs w1) in
        execute req w' = (w', inl new_AlreadyParticipatingException)
        /\ countPair w' e (User.id u) = 1%nat)
  /\ (forall w1 n,
        execute req w = (w1, inr tt) ->
        executeAll (repeat req n) w1
        = (w1, repeat (inl new_AlreadyParticipatingException) n))
  /\ (forall wb reqs,
        database_find (webinarRepository w) e = Some wb ->
        isAlreadyParticipating
          (participations_of (participationRepository w) e) u = true ->
        let w' := fst (executeAll reqs w) in
        execute req w' = (w', inl new_AlreadyParticipatingException)).
Proof.
  intros Hle req.
  assert (Hlater : forall w1 reqs,
            execute req w = (w1, inr tt) ->
            let w' := fst (executeAll reqs w1) in
            execute req w' = (w', inl new_AlreadyParticipatingException)).
  { intros w1 reqs Hok w'.
    destruct (execute_success_inv _ _ _ Hok) as [wb [Hfind [_ [_ [Hdb _]]]]].
    apply (execute_registered e u w' wb).
    - subst w'. now rewrite executeAll_webinarRepository, Hdb.
    - subst w'. apply executeAll_registered.
      apply (execute_success_registers req w w1 Hok). }
  split; [|split; [|split]].
  - intros reqs. now apply executeAll_unique.
  - intros w1 reqs Hok w'. split; [now apply Hlater|].
    assert (Hone : (countPair w' e (User.id u) <= 1)%nat).
    { subst w'. apply executeAll_unique.
      replace w1 with (fst (execute req w)) by now rewrite Hok.
      now apply execute_unique. }
    assert (Hreg : isAlreadyParticipating
                     (participations_of (participationRepository w') e) u
                   = true).
    { subst w'. apply executeAll_registered.
      apply (execute_success_registers req w w1 Hok). }
    unfold countPair in *. unfold isAlreadyParticipating in Hreg.
    destruct (filter _ (participations_of (participationRepository w') e))
      as [|p l] eqn:Hf.
    + exfalso. apply existsb_exists in Hreg. destruct Hreg as [p [Hin Hp]].
      assert (Hin' : In p []).
      { rewrite <- Hf. apply filter_In. now split. }
      exact Hin'.
    + simpl in *. lia.
  - intros w1 n Hok. induction n as [|n IH]; [reflexivity|].
    pose proof (Hlater w1 [] Hok) as Hagain. simpl in Hagain.
    simpl repeat. rewrite executeAll_cons, Hagain. simpl. now rewrite IH.
  - intros wb reqs Hfind Hreg w'. apply (execute_registered e u w' wb).
    + subst w'. now rewrite executeAll_webinarRepository.
    + subst w'. now apply executeAll_registered.
Qed.

Lemma duplicate_invariant_witness :
  (countPair Fixture.world "webinar-1" (User.id Fixture.user) <= 1)%nat
  /\ (countPair
        (fst (executeAll (repeat Fixture.request 3) Fixture.world))
        "webinar-1" (User.id Fixture.user) <= 1)%nat.
Proof.
  split; [vm_compute; lia|].
  apply (duplicate_invariant "webinar-1" Fixture.user Fixture.world).
  vm_compute. lia.
Defined.

(** The fourth scenario of the specification, three times over. *)
Example booked_user_repeats :
  executeAll (repeat Fixture.request 3) Fixture.bookedWorld
  = (Fixture.bookedWorld,
     repeat (inl new_AlreadyParticipatingException) 3).
Proof. reflexivity. Qed.

(* ===================================================================== *)
(** ** Calls that overlap *)
(* ===================================================================== *)

(** A task resumed until it ends does what [execute] does. *)
Lemma resumeN_execute (req : Request) (w : World) :
  resumeN maxResumes (Called req) w
  = (fst (execute req w), Done (snd (execute req w))).
Proof.
  rewrite (execute_unfold req w). unfold maxResumes. simpl.
  destruct (database_find (webinarRepository w) (webinarId req)) as [wb|];
    [|reflexivity].
  simpl.
  destruct (isAlreadyParticipating _ (user req)); [reflexivity|].
  destruct (noSeatsLeft _ wb); [reflexivity|].
  simpl. destruct (users_find (userRepository w) (Webinar.organizerId wb));
    reflexivity.
Qed.

Lemma replaceAt_same {A} (i : nat) (x : A) (l : list A) :
  nth_error l i = Some x -> replaceAt i x l = l.
Proof.
  revert i. induction l as [|y l IH]; intros [|i] H; simpl in *;
    try discriminate.
  - now inversion H.
  - now rewrite IH.
Qed.

Lemma replaceAt_twice {A} (i : nat) (x y : A) (l : list A) :
  replaceAt i x (replaceAt i y l) = replaceAt i x l.
Proof.
  revert i. induction l as [|z l IH]; intros [|i]; simpl; auto.
  now rewrite IH.
Qed.

Lemma nth_error_replaceAt {A} (i : nat) (x y : A) (l : list A) :
  nth_error l i = Some y -> nth_error (replaceAt i x l) i = Some x.
Proof.
  revert i. induction l as [|z l IH]; intros [|i] H; simpl in *;
    try discriminate; auto.
Qed.

Lemma replaceAt_middle {A} (l1 l2 : list A) (x y : A) :
  replaceAt (List.length l1) x (l1 ++ y :: l2) = l1 ++ x :: l2.
Proof.
  induction l1 as [|z l1 IH]; simpl; [reflexivity|]. now rewrite IH.
Qed.

Lemma runSchedule_app (s1 s2 : list nat) (s : World * list Task) :
  runSchedule (s1 ++ s2) s = runSchedule s2 (runSchedule s1 s).
Proof.
  revert s. induction s1 as [|i s1 IH]; intros s; simpl; auto.
Qed.

Lemma serial_cons (i : nat) (order : list nat) :
  serial (i :: order) = repeat i maxResumes ++ serial order.
Proof. reflexivity. Qed.

(** Resuming the same task [n] times in a row. *)
Lemma runSchedule_repeat (n i : nat) (t : Task) :
  forall (w : World) (pool : list Task),
    nth_error pool i = Some t ->
    runSchedule (repeat i n) (w, pool)
    = (fst (resumeN n t w), replaceAt i (snd (resumeN n t w)) pool).
Proof.
  revert t. induction n as [|n IH]; intros t w pool Hi; simpl.
  - now rewrite replaceAt_same.
  - unfold stepAt at 1. simpl. rewrite Hi.
    destruct (resume t w) as [w1 t1].
    rewrite (IH t1 w1 (replaceAt i t1 pool)).
    + now rewrite replaceAt_twice.
    + now apply nth_error_replaceAt with (y := t).
Qed.

(** Tasks run to their end one after another, in the order of the pool,
    give what [executeAll] gives. *)
Lemma runSchedule_serial (reqs : list Request) :
  forall (w : World) (done : list (Settled unit)),
    runSchedule (serial (seq (List.length done) (List.length reqs)))
                (w, map Done done ++ map Called reqs)
    = (fst (executeAll reqs w),
       map Done done ++ map Done (snd (executeAll reqs w))).
Proof.
  induction reqs as [|req reqs IH]; intros w done; [reflexivity|].
  rewrite executeAll_cons. simpl fst. simpl snd.
  simpl List.length. simpl seq. rewrite serial_cons, runSchedule_app.
  rewrite (runSchedule_repeat maxResumes (List.length done) (Called req)).
  - rewrite resumeN_execute. simpl fst. simpl snd. simpl map.
    assert (Hpool :
      replaceAt (List.length done) (Done (snd (execute req w)))
                (map Done done ++ Called req :: map Called reqs)
      = map Done done ++ Done (snd (execute req w)) :: map Called reqs).
    { rewrite <- (length_map Done done). apply replaceAt_middle. }
    rewrite Hpool.
    replace (map Done done ++ Done (snd (execute req w)) :: map Called reqs)
      with (map Done (done ++ [snd (execute req w)]) ++ map Called reqs)
      by (rewrite map_app, <- app_assoc; reflexivity).
    replace (S (List.length done))
      with (List.length (done ++ [snd (execute req w)]))
      by (rewrite length_app; simpl; lia).
    rewrite IH, map_app, <- app_assoc. reflexivity.
  - simpl map. rewrite <- (length_map Done done).
    rewrite nth_error_app2, Nat.sub_diag by lia. reflexivity.
Qed.

Lemma resume_owes (e : string) (t : Task) (w : World) :
  (countFor (fst (resume t w)) e + owes e (snd (resume t w))
   <= countFor w e + owes e t)%nat.
Proof.
  unfold owes.
  destruct t as [req|req [wb|]|req wb ps|req wb ps|req wb ps [o|]| |r];
    simpl; try lia.
  - destruct (isAlreadyParticipating ps (user req)); simpl;
      [destruct (String.eqb (webinarId req) e); lia|].
    destruct (noSeatsLeft ps wb); simpl;
      [destruct (String.eqb (webinarId req) e); lia|].
    unfold countFor. simpl. rewrite participations_of_snoc, length_app.
    simpl. destruct (String.eqb (webinarId req) e); simpl; lia.
  - unfold countFor. simpl. lia.
Qed.

Lemma pendingFor_replaceAt (e : string) (i : nat) (t t' : Task)
      (pool : list Task) :
  nth_error pool i = Some t ->
  (pendingFor e (replaceAt i t' pool) + owes e t
   = pendingFor e pool + owes e t')%nat.
Proof.
  unfold pendingFor, owes.
  revert i. induction pool as [|x pool IH]; intros [|i] H; simpl in *;
    try discriminate.
  - inversion H; subst.
    destruct (mayStillSave e t), (mayStillSave e t'); simpl; lia.
  - specialize (IH i H). destruct (mayStillSave e x); simpl; lia.
Qed.

Lemma stepAt_owes (e : string) (i : nat) (s : World * list Task) :
  (countFor (fst (stepAt i s)) e + pendingFor e (snd (stepAt i s))
   <= countFor (fst s) e + pendingFor e (snd s))%nat.
Proof.
  unfold stepAt. destruct (nth_error (snd s) i) as [t|] eqn:Hi; [|lia].
  pose proof (resume_owes e t (fst s)) as Hr.
  destruct (resume t (fst s)) as [w' t']. simpl in *.
  pose proof (pendingFor_replaceAt e i t t' (snd s) Hi). lia.
Qed.

(** Whatever the schedule, an invocation adds at most one participation. *)
Lemma runSchedule_owes (e : string) (sched : list nat) :
  forall s : World * list Task,
    (countFor (fst (runSchedule sched s)) e
     + pendingFor e (snd (runSchedule sched s))
     <= countFor (fst s) e + pendingFor e (snd s))%nat.
Proof.
  induction sched as [|i sched IH]; intros s; simpl; [lia|].
  specialize (IH (stepAt i s)). pose proof (stepAt_owes e i s). lia.
Qed.

(** No task, resumed at any point, touches the webinar repository. *)
Lemma resume_webinarRepository (t : Task) (w : World) :
  webinarRepository (fst (resume t w)) = webinarRepository w.
Proof.
  destruct t as [req|req [wb|]|req wb ps|req wb ps|req wb ps [o|]| |r];
    simpl; try reflexivity.
  destruct (isAlreadyParticipating ps (user req)); [reflexivity|].
  destruct (noSeatsLeft ps wb); reflexivity.
Qed.

Lemma runSchedule_webinarRepository (sched : list nat) :
  forall s : World * list Task,
    webinarRepository (fst (runSchedule sched s)) = webinarRepository (fst s).
Proof.
  induction sched as [|i sched IH]; intros s; simpl; [reflexivity|].
  rewrite IH. unfold stepAt.
  destruct (nth_error (snd s) i) as [t|]; [|reflexivity].
  pose proof (resume_webinarRepository t (fst s)) as H.
  destruct (resume t (fst s)). exact H.
Qed.

Lemma pendingFor_Called (e : string) (reqs : list Request) :
  pendingFor e (map Called reqs)
  = List.length (filter (fun req => String.eqb (webinarId req) e) reqs).
Proof.
  unfold pendingFor. induction reqs as [|req reqs IH]; simpl; [reflexivity|].
  destruct (String.eqb (webinarId req) e); simpl; now rewrite IH.
Qed.

(** C2, as the claim has it, is false.  Two users book a webinar with one
    seat in invocations started together, which take turns at every
    [await]: each reads the participations before the other has saved, both
    pass the two checks, both save.  The store then holds two
    participations for one seat, which neither order of the two calls made
    in turn gives; and one user booking twice in that way is saved twice. *)
Lemma overlapping_calls_overbook :
  let s := runSchedule Fixture.roundRobin
             (Fixture.smallWorld,
              map Called [Fixture.request; Fixture.otherRequest]) in
  snd s = [Done (inr tt); Done (inr tt)]
  /\ database_find (webinarRepository (fst s)) "webinar-1"
     = Some Fixture.smallWebinar
  /\ Z.of_nat (countFor (fst s) "webinar-1")
     > Webinar.seats Fixture.smallWebinar
  /\ countFor (fst s) "webinar-1" = 2%nat
  /\ countFor (fst (executeAll [Fixture.request; Fixture.otherRequest]
                               Fixture.smallWorld)) "webinar-1" = 1%nat
  /\ countFor (fst (executeAll [Fixture.otherRequest; Fixture.request]
                               Fixture.smallWorld)) "webinar-1" = 1%nat
  /\ countPair
       (fst (runSchedule Fixture.roundRobin
               (Fixture.world,
                map Called [Fixture.request; Fixture.request])))
       "webinar-1" "user-1" = 2%nat.
Proof.
  vm_compute. repeat split; reflexivity.
Qed.

(** C2 (amended): [execute] has nothing that orders invocations which
    overlap, and what holds of them is only that each adds at most one
    participation: whatever the schedule, the count of a webinar grows by at
    most the number of invocations for it.  When each invocation runs to
    its end before the next one starts, the outcome is that of the calls
    made in turn, and then a store that is within the seats of a webinar
    and holds no user twice for it stays so. *)
Theorem calls_in_turn_are_safe (reqs : list Request) (w : World) (e : string)
        (wb : Webinar.t) :
  database_find (webinarRepository w) e = Some wb ->
  Z.of_nat (countFor w e) <= Webinar.seats wb ->
  (forall id, (countPair w e id <= 1)%nat) ->
  let s := runSchedule (serial (seq 0 (List.length reqs)))
                       (w, map Called reqs) in
  s = (fst (executeAll reqs w), map Done (snd (executeAll reqs w)))
  /\ Z.of_nat (countFor (fst s) e) <= Webinar.seats wb
  /\ (forall id, (countPair (fst s) e id <= 1)%nat)
  /\ (forall sched,
        (countFor (fst (runSchedule sched (w, map Called reqs))) e
         <= countFor w e
            + List.length
                (filter (fun req => String.eqb (webinarId req) e) reqs))%nat).
Proof.
  intros Hfind Hcap Huniq s.
  assert (Hs : s = (fst (executeAll reqs w),
                    map Done (snd (executeAll reqs w)))).
  { subst s. apply (runSchedule_serial reqs w []). }
  split; [exact Hs|]. rewrite Hs. simpl fst.
  split; [now apply executeAll_capacity|].
  split; [intros id; now apply executeAll_unique|].
  intros sched.
  pose proof (runSchedule_owes e sched (w, map Called reqs)) as H.
  simpl in H. rewrite pendingFor_Called in H. lia.
Qed.

Lemma calls_in_turn_are_safe_witness :
  database_find (webinarRepository Fixture.smallWorld) "webinar-1"
  = Some Fixture.smallWebinar
  /\ Z.of_nat
       (countFor
          (fst (runSchedule (serial [0; 1]%nat)
                  (Fixture.smallWorld,
                   map Called [Fixture.request; Fixture.otherRequest])))
          "webinar-1")
     <= Webinar.seats Fixture.smallWebinar.
Proof.
  split; [reflexivity|].
  apply (calls_in_turn_are_safe [Fixture.request; Fixture.otherRequest]
           Fixture.smallWorld "webinar-1" Fixture.smallWebinar).
  - reflexivity.
  - vm_compute. discriminate.
  - intros id. vm_compute. lia.
Defined.

(* ===================================================================== *)
(** ** More on the [Webinar] entity *)
(* ===================================================================== *)

(** X1: the two bounds on [seats] never fire together, and neither fires
    exactly for the numbers from 1 to 1000. *)
Theorem seats_bounds (w : Webinar.t) :
  (Webinar.hasTooManySeats w && Webinar.hasNotEnoughSeats w = false)
  /\ (Webinar.hasTooManySeats w = false /\ Webinar.hasNotEnoughSeats w = false
      <-> 1 <= Webinar.seats w <= 1000).
Proof.
  unfold Webinar.hasTooManySeats, Webinar.hasNotEnoughSeats.
  destruct (Z.gtb_spec (Webinar.seats w) 1000),
           (Z.ltb_spec (Webinar.seats w) 1); simpl;
    (split; [reflexivity || lia | split; [intros [? ?]|intros ?; split]]);
    try reflexivity; try discriminate; lia.
Qed.

(** X2: [isParticipant] after [addParticipant]: the user added is a
    participant, and any other user is one exactly when they were. *)
Theorem isParticipant_addParticipant (w : Webinar.t) (u v : string) :
  Webinar.isParticipant (Webinar.addParticipant w u) v
  = (Webinar.isParticipant w v || String.eqb v u)%bool.
Proof.
  unfold Webinar.isParticipant, Webinar.addParticipant,
    Webinar.participantsOrEmpty at 1.
  simpl. rewrite existsb_app. simpl. now rewrite orb_false_r.
Qed.

(** X3: [hasAvailableSeats()] and [getRemainingSeats()] agree: seats are
    available exactly when the number remaining is positive. *)
Theorem hasAvailableSeats_getRemainingSeats (w : Webinar.t) :
  Webinar.hasAvailableSeats w = true <-> 0 < Webinar.getRemainingSeats w.
Proof.
  unfold Webinar.hasAvailableSeats, Webinar.getRemainingSeats.
  rewrite Z.ltb_lt. lia.
Qed.

Lemma addParticipant_participantsOrEmpty (w : Webinar.t) (u : string) :
  Webinar.participantsOrEmpty (Webinar.addParticipant w u)
  = Webinar.participantsOrEmpty w ++ [u].
Proof. reflexivity. Qed.

Lemma addParticipants_fold (us : list string) :
  forall w : Webinar.t,
    Webinar.participantsOrEmpty (fold_left Webinar.addParticipant us w)
    = Webinar.participantsOrEmpty w ++ us
    /\ Webinar.seats (fold_left Webinar.addParticipant us w) = Webinar.seats w.
Proof.
  induction us as [|u us IH]; intros w; simpl.
  - now rewrite app_nil_r.
  - destruct (IH (Webinar.addParticipant w u)) as [Hp Hs].
    rewrite Hp, Hs, addParticipant_participantsOrEmpty, <- app_assoc.
    split; reflexivity.
Qed.

(** X4: users added one after another are appended in that order, each takes
    one remaining seat, and seats are available afterwards exactly when the
    participants before plus the users added are fewer than [seats]:
    nothing stops the additions at zero. *)
Theorem addParticipant_many (w : Webinar.t) (us : list string) :
  let w' := fold_left Webinar.addParticipant us w in
  Webinar.participantsOrEmpty w' = Webinar.participantsOrEmpty w ++ us
  /\ Webinar.getRemainingSeats w'
     = Webinar.getRemainingSeats w - Z.of_nat (List.length us)
  /\ (Webinar.hasAvailableSeats w' = true
      <-> Z.of_nat (List.length (Webinar.participantsOrEmpty w))
          + Z.of_nat (List.length us) < Webinar.seats w).
Proof.
  intros w'. destruct (addParticipants_fold us w) as [Hp Hs]. fold w' in Hp, Hs.
  split; [exact Hp|].
  unfold Webinar.hasAvailableSeats, Webinar.getRemainingSeats.
  rewrite Hp, Hs, length_app, Z.ltb_lt. lia.
Qed.

(* ===================================================================== *)
(** ** The in-memory repositories *)
(* ===================================================================== *)

(** [find] returns the first element that passes the test. *)
Lemma find_first {A} (f : A -> bool) (l : list A) (x : A) :
  find f l = Some x <->
  exists l1 l2, l = l1 ++ x :: l2 /\ f x = true
                /\ forall y, In y l1 -> f y = false.
Proof.
  split.
  - induction l as [|a l IH]; simpl; [discriminate|].
    destruct (f a) eqn:Ha.
    + intros H. inversion H; subst. exists [], l. simpl. intuition.
    + intros H. destruct (IH H) as [l1 [l2 [Hl [Hx Hb]]]].
      exists (a :: l1), l2. subst l. simpl. repeat split; auto.
      intros y [<-|Hy]; auto.
  - intros [l1 [l2 [Hl [Hx Hb]]]]. subst l.
    induction l1 as [|a l1 IH]; simpl.
    + now rewrite Hx.
    + rewrite (Hb a (or_introl eq_refl)). apply IH.
      intros y Hy. apply Hb. now right.
Qed.

Lemma find_absent {A} (f : A -> bool) (l : list A) :
  find f l = None <-> forall y, In y l -> f y = false.
Proof.
  split.
  - intros H y Hy. now apply (find_none f l H).
  - induction l as [|a l IH]; simpl; [reflexivity|]. intros H.
    rewrite (H a (or_introl eq_refl)). apply IH. intros y Hy. apply H.
    now right.
Qed.

(** X5: [InMemoryWebinarRepository.findById]: the webinar returned is the first
    of the array that has the id, and [null] is returned exactly when no
    webinar of the array has it. *)
Theorem webinar_findById_first (db : list Webinar.t) (id : string) :
  (forall w, database_find db id = Some w <->
             exists l1 l2, db = l1 ++ w :: l2 /\ Webinar.id w = id
                           /\ forall y, In y l1 -> Webinar.id y <> id)
  /\ (database_find db id = None <->
      forall y, In y db -> Webinar.id y <> id).
Proof.
  unfold database_find. split.
  - intros w. rewrite find_first. split.
    + intros [l1 [l2 [Hl [Hw Hb]]]]. exists l1, l2.
      repeat split; auto.
      * now apply String.eqb_eq.
      * intros y Hy. apply String.eqb_neq. now apply Hb.
    + intros [l1 [l2 [Hl [Hw Hb]]]]. exists l1, l2.
      repeat split; auto.
      * now apply String.eqb_eq.
      * intros y Hy. apply String.eqb_neq. now apply Hb.
  - rewrite find_absent. split; intros H y Hy.
    + apply String.eqb_neq. now apply H.
    + apply String.eqb_neq. now apply H.
Qed.

(** X9: [InMemoryUserRepository.findById]: the user returned is the first of
    the array that has the id, and [null] is returned exactly when no user
    of the array has it. *)
Theorem user_findById_first (us : list User.t) (id : string) :
  (forall u, users_find us id = Some u <->
             exists l1 l2, us = l1 ++ u :: l2 /\ User.id u = id
                           /\ forall y, In y l1 -> User.id y <> id)
  /\ (users_find us id = None <-> forall y, In y us -> User.id y <> id).
Proof.
  unfold users_find. split.
  - intros u. rewrite find_first. split.
    + intros [l1 [l2 [Hl [Hu Hb]]]]. exists l1, l2.
      repeat split; auto.
      * now apply String.eqb_eq.
      * intros y Hy. apply String.eqb_neq. now apply Hb.
    + intros [l1 [l2 [Hl [Hu Hb]]]]. exists l1, l2.
      repeat split; auto.
      * now apply String.eqb_eq.
      * intros y Hy. apply String.eqb_neq. now apply Hb.
  - rewrite find_absent. split; intros H y Hy.
    + apply String.eqb_neq. now apply H.
    + apply String.eqb_neq. now apply H.
Qed.

Lemma database_find_snoc (db : list Webinar.t) (webinar : Webinar.t)
      (id : string) :
  database_find (db ++ [webinar]) id
  = match database_find db id with
    | Some w => Some w
    | None => if String.eqb (Webinar.id webinar) id then Some webinar
              else None
    end.
Proof.
  unfold database_find. induction db as [|a db IH]; simpl; [reflexivity|].
  destruct (String.eqb (Webinar.id a) id); [reflexivity|exact IH].
Qed.

(** X6: [create] then [findById]: [create] never throws and touches nothing
    but the array of webinars; a webinar created under a new id is found
    under it, one created under an id already taken is not, the earlier
    webinar being found as before; no other id is affected. *)
Theorem create_then_findById (webinar : Webinar.t) (id : string) (w : World) :
  let w' := fst (webinarRepository_create webinar w) in
  snd (webinarRepository_create webinar w) = inr tt
  /\ participationRepository w' = participationRepository w
  /\ userRepository w' = userRepository w
  /\ mailer w' = mailer w
  /\ (webinarRepository_create webinar ;; webinarRepository_findById id) w
     = (w', inr match database_find (webinarRepository w) id with
                | Some earlier => Some earlier
                | None => if String.eqb (Webinar.id webinar) id
                          then Some webinar else None
                end).
Proof.
  simpl. repeat split; auto.
  unfold bind, webinarRepository_create, webinarRepository_findById. simpl.
  now rewrite database_find_snoc.
Qed.

(** The array after [update]. *)
Lemma update_cons (a webinar : Webinar.t) (db : list Webinar.t) :
  match database_findIndex (a :: db) (Webinar.id webinar) with
  | Some index => replaceAt index webinar (a :: db)
  | None => a :: db
  end
  = if String.eqb (Webinar.id a) (Webinar.id webinar) then webinar :: db
    else a :: match database_findIndex db (Webinar.id webinar) with
              | Some index => replaceAt index webinar db
              | None => db
              end.
Proof.
  simpl. destruct (String.eqb (Webinar.id a) (Webinar.id webinar));
    [reflexivity|].
  destruct (database_findIndex db (Webinar.id webinar)); reflexivity.
Qed.

Lemma update_webinarRepository (webinar : Webinar.t) (w : World) :
  webinarRepository (fst (webinarRepository_update webinar w))
  = match database_findIndex (webinarRepository w) (Webinar.id webinar) with
    | Some index => replaceAt index webinar (webinarRepository w)
    | None => webinarRepository w
    end.
Proof.
  unfold webinarRepository_update.
  destruct (database_findIndex _ _); reflexivity.
Qed.

Lemma update_find (webinar : Webinar.t) (id : string) (db : list Webinar.t) :
  database_find
    match database_findIndex db (Webinar.id webinar) with
    | Some index => replaceAt index webinar db
    | None => db
    end id
  = match database_find db id with
    | Some old => if String.eqb (Webinar.id webinar) id
                  then Some webinar else Some old
    | None => None
    end.
Proof.
  induction db as [|a db IH]; [reflexivity|].
  rewrite update_cons. unfold database_find in *. simpl.
  destruct (String.eqb_spec (Webinar.id a) (Webinar.id webinar)) as [Ha|Ha].
  - simpl. rewrite Ha.
    destruct (String.eqb (Webinar.id webinar) id); [reflexivity|].
    destruct (find _ db); reflexivity.
  - simpl. destruct (String.eqb_spec (Webinar.id a) id) as [Hid|Hid].
    + destruct (String.eqb_spec (Webinar.id webinar) id) as [Hw|Hw];
        [|reflexivity].
      exfalso. apply Ha. now rewrite Hid, Hw.
    + exact IH.
Qed.

Lemma update_length (webinar : Webinar.t) (db : list Webinar.t) :
  List.length match database_findIndex db (Webinar.id webinar) with
              | Some index => replaceAt index webinar db
              | None => db
              end
  = List.length db.
Proof.
  induction db as [|a db IH]; [reflexivity|].
  rewrite update_cons.
  destruct (String.eqb (Webinar.id a) (Webinar.id webinar)); simpl; auto.
Qed.

(** X7: [update] then [findById]: [update] never throws, keeps the number of
    webinars and touches no other store; a webinar whose id is found is
    replaced, so that [findById] returns the new one, and every other id
    gives what it gave before, a missing one still [null]. *)
Theorem update_then_findById (webinar : Webinar.t) (id : string) (w : World) :
  let w' := fst (webinarRepository_update webinar w) in
  snd (webinarRepository_update webinar w) = inr tt
  /\ List.length (webinarRepository w') = List.length (webinarRepository w)
  /\ participationRepository w' = participationRepository w
  /\ userRepository w' = userRepository w
  /\ mailer w' = mailer w
  /\ database_find (webinarRepository w') id
     = match database_find (webinarRepository w) id with
       | Some old => if String.eqb (Webinar.id webinar) id
                     then Some webinar else Some old
       | None => None
       end.
Proof.
  intros w'. subst w'. rewrite update_webinarRepository, update_length,
    update_find.
  unfold webinarRepository_update.
  destruct (database_findIndex _ _); simpl; repeat split; reflexivity.
Qed.

Lemma findIndex_None (db : list Webinar.t) (id : string) :
  database_find db id = None -> database_findIndex db id = None.
Proof.
  unfold database_find. induction db as [|a db IH]; simpl; [reflexivity|].
  destruct (String.eqb (Webinar.id a) id); [discriminate|].
  intros H. now rewrite (IH H).
Qed.

(** X8: [update] of a webinar whose id the repository does not have does
    nothing and says nothing: the stores are the same and no error is
    thrown, so the webinar is not there afterwards either. *)
Theorem update_unknown_is_silent (webinar : Webinar.t) (w : World) :
  database_find (webinarRepository w) (Webinar.id webinar) = None ->
  webinarRepository_update webinar w = (w, inr tt)
  /\ (webinarRepository_update webinar ;;
      webinarRepository_findById (Webinar.id webinar)) w = (w, inr None).
Proof.
  intros H. unfold bind, webinarRepository_update, webinarRepository_findById.
  rewrite (findIndex_None _ _ H). simpl. now rewrite H.
Qed.

Lemma update_unknown_is_silent_witness :
  database_find (webinarRepository Fixture.emptyWorld)
                (Webinar.id Fixture.webinar) = None
  /\ webinarRepository_update Fixture.webinar Fixture.emptyWorld
     = (Fixture.emptyWorld, inr tt).
Proof.
  split; [reflexivity|].
  apply (update_unknown_is_silent Fixture.webinar Fixture.emptyWorld).
  reflexivity.
Defined.

(** X10: [save] then [findByWebinarId]: [save] never throws and touches no other
    store; the participation saved comes last in the list of its webinar,
    behind those found before in their order, also when the same user and
    webinar are there already; the list of every other webinar is as it
    was. *)
Theorem save_then_findByWebinarId (p : Participation.t) (e : string)
        (w : World) :
  let w' := fst (participationRepository_save p w) in
  snd (participationRepository_save p w) = inr tt
  /\ webinarRepository w' = webinarRepository w
  /\ userRepository w' = userRepository w
  /\ mailer w' = mailer w
  /\ (participationRepository_save p ;;
      participationRepository_findByWebinarId e) w
     = (w', inr (participations_of (participationRepository w) e
                 ++ if String.eqb (Participation.webinarId p) e
                    then [p] else [])).
Proof.
  simpl. repeat split; auto.
  unfold bind, participationRepository_save,
    participationRepository_findByWebinarId. simpl.
  now rewrite participations_of_snoc.
Qed.

(* ===================================================================== *)
(** ** More on [execute] *)
(* ===================================================================== *)

(** X11: [execute] never writes to the user repository, and a call for one
    webinar leaves the participations of every other webinar as they
    were, whether it returns or throws. *)
Theorem execute_frame (req : Request) (w : World) :
  userRepository (fst (execute req w)) = userRepository w
  /\ forall e, e <> webinarId req ->
       participations_of (participationRepository (fst (execute req w))) e
       = participations_of (participationRepository w) e.
Proof.
  split.
  - execute_paths req w; reflexivity.
  - intros e He. rewrite execute_participations.
    destruct (snd (execute req w)); [now rewrite app_nil_r|].
    rewrite participations_of_snoc. simpl.
    destruct (String.eqb_spec (webinarId req) e) as [Heq|];
      [now symmetry in Heq | apply app_nil_r].
Qed.



Lemma booked_cons (req : Request) (reqs : list Request) (w : World) :
  booked (req :: reqs) (snd (executeAll (req :: reqs) w))
  = match snd (execute req w) with
    | inr _ => [req]
    | inl _ => []
    end ++ booked reqs (snd (executeAll reqs (fst (execute req w)))).
Proof.
  rewrite executeAll_cons. simpl.
  destruct (snd (execute req w)); reflexivity.
Qed.

Lemma execute_mailer_length (req : Request) (w : World) :
  (List.length (mailer (fst (execute req w)))
   <= List.length (mailer w)
      + match snd (execute req w) with inr _ => 1 | inl _ => 0 end)%nat.
Proof.
  execute_paths req w; simpl; rewrite ?length_app; simpl; lia.
Qed.

Lemma executeAll_booked (reqs : list Request) (w : World) :
  let w' := fst (executeAll reqs w) in
  let results := snd (executeAll reqs w) in
  participationRepository w'
  = participationRepository w ++ map newParticipation (booked reqs results)
  /\ List.length results = List.length reqs
  /\ (List.length (mailer w')
      <= List.length (mailer w) + List.length (booked reqs results))%nat.
Proof.
  revert w. induction reqs as [|req reqs IH]; intros w.
  - simpl. rewrite app_nil_r. repeat split; lia.
  - cbv zeta. rewrite booked_cons. rewrite executeAll_cons. simpl fst.
    simpl snd. destruct (IH (fst (execute req w))) as [Hp [Hl Hm]].
    rewrite Hp, execute_participations, map_app, length_app.
    pose proof (execute_mailer_length req w) as Hone.
    destruct (snd (execute req w)); simpl; rewrite Hl.
    + rewrite app_nil_r. repeat split; auto. simpl in Hone. lia.
    + rewrite <- app_assoc. repeat split; auto. simpl in Hone. lia.
Qed.

(** X13: after calls made one after another the store is the store before
    followed by one participation for each call that returned, in the order
    of the calls, and nothing for a call that threw; there is one outcome
    for each call and at most one e-mail for each call that returned. *)
Theorem executeAll_store (reqs : list Request) (w : World) :
  let w' := fst (executeAll reqs w) in
  let results := snd (executeAll reqs w) in
  participationRepository w'
  = participationRepository w ++ map newParticipation (booked reqs results)
  /\ List.length results = List.length reqs
  /\ (List.length (mailer w')
      <= List.length (mailer w) + List.length (booked reqs results))%nat.
Proof.
  exact (executeAll_booked reqs w).
Qed.

(** One user, not yet participating, books a webinar that exists. *)
Lemma book_one (e : string) (wb : Webinar.t) (u : User.t) (w : World) :
  database_find (webinarRepository w) e = Some wb ->
  isAlreadyParticipating (participations_of (participationRepository w) e) u
  = false ->
  snd (execute (mkRequest e u) w)
  = (if Z.of_nat (countFor w e) <? Webinar.seats wb then inr tt
     else inl new_NoSeatsAvailableException)
  /\ countFor (fst (execute (mkRequest e u) w)) e
     = (countFor w e
        + if (Z.of_nat (countFor w e) <? Webinar.seats wb)%Z
          then 1 else 0)%nat.
Proof.
  intros Hfind Hnew.
  assert (Hr : snd (execute (mkRequest e u) w)
               = if Z.of_nat (countFor w e) <? Webinar.seats wb then inr tt
                 else inl new_NoSeatsAvailableException).
  { rewrite execute_unfold. simpl. rewrite Hfind, Hnew.
    unfold noSeatsLeft. fold (countFor w e).
    rewrite Z.geb_leb, Z.leb_antisym.
    destruct (Z.of_nat (countFor w e) <? Webinar.seats wb); simpl;
      [|reflexivity].
    destruct (users_find _ _); reflexivity. }
  split; [exact Hr|]. rewrite execute_countFor, Hr. simpl.
  destruct (Z.of_nat (countFor w e) <? Webinar.seats wb);
    [now rewrite String.eqb_refl|reflexivity].
Qed.

Lemma bookAll_results (e : string) (wb : Webinar.t) (users : list User.t) :
  NoDup (map User.id users) ->
  forall w,
    database_find (webinarRepository w) e = Some wb ->
    (forall u, In u users ->
       isAlreadyParticipating
         (participations_of (participationRepository w) e) u = false) ->
    let free := Z.to_nat (Webinar.seats wb - Z.of_nat (countFor w e)) in
    snd (executeAll (bookAll e users) w)
    = repeat (inr tt) (Nat.min free (List.length users))
      ++ repeat (inl new_NoSeatsAvailableException)
                (List.length users - free).
Proof.
  induction users as [|u users IH]; intros Hnd w Hfind Hnew free.
  - simpl. rewrite Nat.min_0_r. reflexivity.
  - inversion Hnd as [|x l Hnotin Hnd']; subst.
    unfold bookAll. simpl map. rewrite executeAll_cons. simpl snd.
    fold (bookAll e users).
    destruct (book_one e wb u w Hfind (Hnew u (or_introl eq_refl)))
      as [Hr Hc].
    rewrite Hr. rewrite (IH Hnd' (fst (execute (mkRequest e u) w))).
    + rewrite Hc. subst free. simpl List.length.
      destruct (Z.ltb_spec (Z.of_nat (countFor w e)) (Webinar.seats wb))
        as [Hlt|Hge].
      * replace (Z.to_nat (Webinar.seats wb - Z.of_nat (countFor w e)))
          with (S (Z.to_nat (Webinar.seats wb
                             - Z.of_nat (countFor w e + 1)%nat))) by lia.
        reflexivity.
      * replace (Z.to_nat (Webinar.seats wb - Z.of_nat (countFor w e)))
          with 0%nat by lia.
        replace (Z.to_nat (Webinar.seats wb
                           - Z.of_nat (countFor w e + 0)%nat))
          with 0%nat by lia.
        simpl. rewrite Nat.sub_0_r. reflexivity.
    + now rewrite execute_webinarRepository.
    + intros u' Hin. rewrite execute_participations.
      destruct (snd (execute (mkRequest e u) w));
        [rewrite app_nil_r; apply Hnew; now right|].
      rewrite participations_of_snoc. unfold isAlreadyParticipating.
      rewrite existsb_app. fold (isAlreadyParticipating
        (participations_of (participationRepository w) e) u').
      rewrite (Hnew u' (or_intror Hin)). simpl.
      rewrite String.eqb_refl. simpl. rewrite orb_false_r.
      apply String.eqb_neq. intros Heq. apply Hnotin.
      rewrite Heq. now apply in_map.
Qed.

(** X14: first come, first served: when users with distinct ids book, one after
    another, a webinar that has no participation yet, the first [seats] of
    them are booked and every later one is refused with
    [NoSeatsAvailableException]. *)
Theorem first_come_first_served (w : World) (e : string) (wb : Webinar.t)
        (users : list User.t) :
  database_find (webinarRepository w) e = Some wb ->
  participations_of (participationRepository w) e = [] ->
  NoDup (map User.id users) ->
  let seats := Z.to_nat (Webinar.seats wb) in
  snd (executeAll (bookAll e users) w)
  = repeat (inr tt) (Nat.min seats (List.length users))
    ++ repeat (inl new_NoSeatsAvailableException) (List.length users - seats)
  /\ map Participation.userId
         (participations_of
            (participationRepository (fst (executeAll (bookAll e users) w))) e)
     = map User.id (firstn seats users).
Proof.
  intros Hfind Hempty Hnd seats.
  assert (Hres : snd (executeAll (bookAll e users) w)
    = repeat (inr tt) (Nat.min seats (List.length users))
      ++ repeat (inl new_NoSeatsAvailableException)
                (List.length users - seats)).
  { rewrite (bookAll_results e wb users Hnd w Hfind).
    - unfold countFor. rewrite Hempty. simpl. rewrite Z.sub_0_r.
      reflexivity.
    - intros u _. rewrite Hempty. reflexivity. }
  split; [exact Hres|].
  destruct (executeAll_booked (bookAll e users) w) as [Hstore _].
  cbv zeta in Hstore. rewrite Hstore, Hres.
  unfold participations_of. rewrite filter_app.
  fold (participations_of (participationRepository w) e). rewrite Hempty.
  simpl. clear Hstore Hres Hnd Hempty Hfind.
  generalize seats. clear seats. induction users as [|u users IH];
    intros seats.
  - simpl. now rewrite firstn_nil.
  - destruct seats as [|seats]; simpl.
    + clear IH. induction users as [|u' users IH]; [reflexivity|].
      simpl. exact IH.
    + rewrite String.eqb_refl. simpl. f_equal. apply IH.
Qed.

Lemma first_come_first_served_witness :
  database_find (webinarRepository Fixture.world) "webinar-1"
  = Some Fixture.webinar
  /\ snd (executeAll
            (bookAll "webinar-1"
               [Fixture.user; Fixture.other; Fixture.organizer])
            Fixture.world)
     = [inr tt; inr tt; inl new_NoSeatsAvailableException].
Proof.
  split; [reflexivity|].
  apply (first_come_first_served Fixture.world "webinar-1" Fixture.webinar
           [Fixture.user; Fixture.other; Fixture.organizer]).
  - reflexivity.
  - reflexivity.
  - repeat constructor; simpl; intuition discriminate.
Defined.

(* ===================================================================== *)
(** ** More on calls that overlap *)
(* ===================================================================== *)

Lemma resume_appends (t : Task) (w : World) :
  userRepository (fst (resume t w)) = userRepository w
  /\ (exists ps, participationRepository (fst (resume t w))
                 = participationRepository w ++ ps)
  /\ (exists es, mailer (fst (resume t w)) = mailer w ++ es).
Proof.
  assert (Hsame : forall v : World,
            userRepository v = userRepository v
            /\ (exists ps, participationRepository v
                           = participationRepository v ++ ps)
            /\ (exists es, mailer v = mailer v ++ es)).
  { intros v. repeat split; exists []; now rewrite app_nil_r. }
  destruct t as [req|req [wb|]|req wb ps|req wb ps|req wb ps [o|]| |r];
    simpl; try apply Hsame.
  - destruct (isAlreadyParticipating ps (user req)); [apply Hsame|].
    destruct (noSeatsLeft ps wb); [apply Hsame|]. simpl.
    repeat split; [now exists [newParticipation req]|].
    exists []. now rewrite app_nil_r.
  - repeat split; [exists []; now rewrite app_nil_r|].
    now exists [organizerEmail wb ps o].
Qed.

(** X15: whatever the tasks and however they are scheduled, the webinars and
    the users are left as they were, and the participations and the
    e-mails sent are those before followed by new ones: nothing saved or
    sent is ever removed or changed. *)
Theorem runSchedule_appends (sched : list nat) (w : World)
        (pool : list Task) :
  let w' := fst (runSchedule sched (w, pool)) in
  webinarRepository w' = webinarRepository w
  /\ userRepository w' = userRepository w
  /\ (exists ps, participationRepository w' = participationRepository w ++ ps)
  /\ (exists es, mailer w' = mailer w ++ es).
Proof.
  cbv zeta. split; [apply (runSchedule_webinarRepository sched (w, pool))|].
  revert w pool. induction sched as [|i sched IH]; intros w pool.
  - simpl. repeat split; exists []; now rewrite app_nil_r.
  - simpl. unfold stepAt. simpl.
    destruct (nth_error pool i) as [t|]; [|apply IH].
    destruct (resume_appends t w) as [Hu [[ps Hp] [es He]]].
    destruct (resume t w) as [w1 t1]. simpl in *.
    destruct (IH w1 (replaceAt i t1 pool)) as [Hu' [[ps' Hp'] [es' He']]].
    rewrite Hu', Hu, Hp', Hp, He', He. repeat split.
    + exists (ps ++ ps'). now rewrite app_assoc.
    + exists (es ++ es'). now rewrite app_assoc.
Qed.

Lemma resume_remainingResumes (t : Task) (w : World) :
  (remainingResumes (snd (resume t w)) <= pred (remainingResumes t))%nat.
Proof.
  destruct t as [req|req [wb|]|req wb ps|req wb ps|req wb ps [o|]| |r];
    simpl; try lia.
  destruct (isAlreadyParticipating ps (user req)); simpl; [lia|].
  destruct (noSeatsLeft ps wb); simpl; lia.
Qed.

Lemma nth_error_replaceAt_other {A} (i j : nat) (x : A) (l : list A) :
  i <> j -> nth_error (replaceAt j x l) i = nth_error l i.
Proof.
  revert i j. induction l as [|a l IH]; intros [|i] [|j] H; simpl; auto;
    try contradiction.
Qed.

Lemma runSchedule_remainingResumes (sched : list nat) (i : nat) :
  forall (w : World) (pool : list Task) (t : Task),
    nth_error pool i = Some t ->
    exists t',
      nth_error (snd (runSchedule sched (w, pool))) i = Some t'
      /\ (remainingResumes t'
          <= remainingResumes t - count_occ Nat.eq_dec sched i)%nat.
Proof.
  induction sched as [|j sched IH]; intros w pool t Hi.
  - exists t. simpl. split; [exact Hi|lia].
  - simpl runSchedule. unfold stepAt. simpl fst. simpl snd.
    destruct (nth_error pool j) as [tj|] eqn:Hj.
    + pose proof (resume_remainingResumes tj w) as Hdown.
      destruct (resume tj w) as [w1 t1]. simpl in Hdown.
      destruct (Nat.eq_dec j i) as [->|Hne].
      * rewrite Hi in Hj. inversion Hj; subst tj.
        destruct (IH w1 (replaceAt i t1 pool) t1) as [t' [Ht' Hle]].
        { now apply nth_error_replaceAt with (y := t). }
        exists t'. split; [exact Ht'|].
        simpl. destruct (Nat.eq_dec i i); [lia|contradiction].
      * destruct (IH w1 (replaceAt j t1 pool) t) as [t' [Ht' Hle]].
        { rewrite nth_error_replaceAt_other; auto. }
        exists t'. split; [exact Ht'|].
        simpl. destruct (Nat.eq_dec j i); [contradiction|lia].
    + destruct (IH w pool t Hi) as [t' [Ht' Hle]].
      exists t'. split; [exact Ht'|].
      simpl. destruct (Nat.eq_dec j i) as [->|]; [|lia].
      rewrite Hi in Hj. discriminate.
Qed.

(** X16: every invocation ends: under any schedule that resumes it six times,
    whatever the other tasks do in between, a task has settled, and it
    stays settled. *)
Theorem every_task_settles (sched : list nat) (i : nat) (w : World)
        (pool : list Task) (t : Task) :
  nth_error pool i = Some t ->
  (maxResumes <= count_occ Nat.eq_dec sched i)%nat ->
  exists r,
    nth_error (snd (runSchedule sched (w, pool))) i = Some (Done r)
    /\ forall more,
         nth_error (snd (runSchedule (sched ++ more) (w, pool))) i
         = Some (Done r).
Proof.
  intros Hi Hocc.
  assert (Hbound : forall t0, (remainingResumes t0 <= maxResumes)%nat).
  { intros []; unfold maxResumes; simpl; lia. }
  destruct (runSchedule_remainingResumes sched i w pool t Hi)
    as [t' [Ht' Hle]].
  assert (H0 : remainingResumes t' = 0%nat).
  { specialize (Hbound t). lia. }
  destruct t'; simpl in H0; try discriminate.
  exists r. split; [exact Ht'|].
  intros more. rewrite runSchedule_app.
  destruct (runSchedule sched (w, pool)) as [w1 pool1]. simpl in Ht'.
  destruct (runSchedule_remainingResumes more i w1 pool1 (Done r) Ht')
    as [t'' [Ht'' Hle'']].
  clear Hle. revert w1 pool1 Ht' t'' Ht'' Hle''.
  induction more as [|j more IH]; intros w1 pool1 Ht' t'' Ht'' Hle''.
  - exact Ht'.
  - simpl. unfold stepAt. simpl.
    destruct (nth_error pool1 j) as [tj|] eqn:Hj.
    + destruct (resume tj w1) as [w2 t2] eqn:Hres.
      assert (Hstill : nth_error (replaceAt j t2 pool1) i = Some (Done r)).
      { destruct (Nat.eq_dec j i) as [->|Hne].
        - rewrite Ht' in Hj. inversion Hj; subst tj. simpl in Hres.
          inversion Hres; subst.
          now apply nth_error_replaceAt with (y := Done r).
        - rewrite nth_error_replaceAt_other; auto. }
      destruct (runSchedule_remainingResumes more i w2 (replaceAt j t2 pool1)
                  (Done r) Hstill) as [t3 [Ht3 Hle3]].
      apply (IH w2 (replaceAt j t2 pool1) Hstill t3 Ht3 Hle3).
    + destruct (runSchedule_remainingResumes more i w1 pool1 (Done r) Ht')
        as [t3 [Ht3 Hle3]].
      apply (IH w1 pool1 Ht' t3 Ht3 Hle3).
Qed.

Lemma every_task_settles_witness :
  nth_error (map Called [Fixture.request; Fixture.otherRequest]) 1
  = Some (Called Fixture.otherRequest)
  /\ exists r,
      nth_error
        (snd (runSchedule Fixture.roundRobin
                (Fixture.smallWorld,
                 map Called [Fixture.request; Fixture.otherRequest]))) 1
      = Some (Done r).
Proof.
  split; [reflexivity|].
  destruct (every_task_settles Fixture.roundRobin 1 Fixture.smallWorld
              (map Called [Fixture.request; Fixture.otherRequest])
              (Called Fixture.otherRequest) eq_refl)
    as [r [Hr _]].
  - vm_compute. lia.
  - exists r. exact Hr.
Defined.

Lemma Forall_replaceAt {A} (P : A -> Prop) (i : nat) (x : A) (l : list A) :
  Forall P l -> P x -> Forall P (replaceAt i x l).
Proof.
  intros Hl Hx. revert i. induction Hl as [|a l Ha Hl IH]; intros [|i];
    simpl; constructor; auto.
Qed.

(** A task resumed while the webinar is full saves nothing for it. *)
Lemma resume_full (e : string) (wb : Webinar.t) (t : Task) (w : World) :
  database_find (webinarRepository w) e = Some wb ->
  Z.of_nat (countFor w e) >= Webinar.seats wb ->
  holdsCurrent e wb (participations_of (participationRepository w) e) t ->
  participations_of (participationRepository (fst (resume t w))) e
  = participations_of (participationRepository w) e
  /\ holdsCurrent e wb (participations_of (participationRepository w) e)
                  (snd (resume t w)).
Proof.
  intros Hfind Hfull Ht.
  destruct t as [req|req [wb'|]|req wb' ps|req wb' ps|req wb' ps [o|]| |r];
    simpl in *; auto.
  - split; [reflexivity|]. intros He. now rewrite He.
  - split; [reflexivity|]. intros He. specialize (Ht He).
    inversion Ht; subst. auto.
  - destruct (isAlreadyParticipating ps (user req)); simpl; auto.
    destruct (noSeatsLeft ps wb') eqn:Hseats; simpl; auto.
    split; [|exact I]. rewrite participations_of_snoc. simpl.
    destruct (String.eqb_spec (webinarId req) e) as [He|He];
      [|apply app_nil_r].
    exfalso. destruct (Ht He) as [-> ->].
    apply noSeatsLeft_false in Hseats. unfold countFor in Hfull. lia.
Qed.

Lemma runSchedule_full (e : string) (wb : Webinar.t) (sched : list nat) :
  forall (w : World) (pool : list Task),
    database_find (webinarRepository w) e = Some wb ->
    Z.of_nat (countFor w e) >= Webinar.seats wb ->
    Forall (holdsCurrent e wb
              (participations_of (participationRepository w) e)) pool ->
    participations_of
      (participationRepository (fst (runSchedule sched (w, pool)))) e
    = participations_of (participationRepository w) e.
Proof.
  induction sched as [|i sched IH]; intros w pool Hfind Hfull Hpool;
    [reflexivity|].
  simpl. unfold stepAt. simpl.
  destruct (nth_error pool i) as [t|] eqn:Hi; [|now apply IH].
  assert (Ht : holdsCurrent e wb
                 (participations_of (participationRepository w) e) t).
  { rewrite Forall_forall in Hpool. apply Hpool.
    now apply nth_error_In with (n := i). }
  destruct (resume_full e wb t w Hfind Hfull Ht) as [Hsame Ht'].
  pose proof (resume_webinarRepository t w) as Hdb.
  destruct (resume t w) as [w1 t1]. simpl in *.
  rewrite <- Hsame. apply IH.
  - now rewrite Hdb.
  - unfold countFor in *. now rewrite Hsame.
  - rewrite Hsame. now apply Forall_replaceAt.
Qed.

(** X17: a webinar that is full stays as it is under any schedule: overlapping
    invocations, whoever they are for, add no participation to a webinar
    whose participations are already as many as its seats. *)
Theorem full_webinar_stays_full (sched : list nat) (reqs : list Request)
        (w : World) (e : string) (wb : Webinar.t) :
  database_find (webinarRepository w) e = Some wb ->
  Z.of_nat (countFor w e) >= Webinar.seats wb ->
  participations_of
    (participationRepository (fst (runSchedule sched (w, map Called reqs)))) e
  = participations_of (participationRepository w) e.
Proof.
  intros Hfind Hfull. apply (runSchedule_full e wb sched); auto.
  apply Forall_forall. intros t Ht. apply in_map_iff in Ht.
  destruct Ht as [req [<- _]]. exact I.
Qed.

Lemma full_webinar_stays_full_witness :
  database_find (webinarRepository Fixture.fullWorld) "webinar-1"
  = Some Fixture.webinar
  /\ participations_of
       (participationRepository
          (fst (runSchedule Fixture.roundRobin
                  (Fixture.fullWorld,
                   map Called [Fixture.request; Fixture.otherRequest]))))
       "webinar-1"
     = participations_of (participationRepository Fixture.fullWorld)
                         "webinar-1".
Proof.
  split; [reflexivity|].
  apply (full_webinar_stays_full Fixture.roundRobin
           [Fixture.request; Fixture.otherRequest] Fixture.fullWorld
           "webinar-1" Fixture.webinar).
  - reflexivity.
  - vm_compute. discriminate.
Defined.
